(** * Window Weather Monitor: the polling loop of WeatherMonitorV2.cpp

    A shallow embedding of the handlers of [src/Arduino Code/WeatherMonitorV2.cpp]
    (ESP32: [unsigned long], [long] and [int] are 32 bits wide, [float] is
    IEEE-754 binary32) and the properties of the specification stated on it. *)

From Stdlib Require Import ZArith Lia List Bool String Ascii SpecFloat.
From stdpp Require Import gmap strings.
Import ListNotations.

Local Open Scope Z_scope.

(** ** Machine arithmetic *)

(** [unsigned long] on the ESP32: arithmetic modulo 2^32.  A [long] operand
    that meets an [unsigned long] one is converted by the same reduction. *)
Definition ULONG_MOD : Z := 2 ^ 32.
Definition LONG_MAX : Z := 2 ^ 31 - 1.
Definition to_ulong (z : Z) : Z := z mod ULONG_MOD.
Definition to_uint8 (z : Z) : Z := z mod 256.

(** [float]: binary32, through the IEEE-754 model of the standard library. *)
Module F32.
Definition prec : Z := 24.
Definition emax : Z := 128.
Definition float : Type := spec_float.

Definition isnan (x : float) : bool :=
  match x with S754_nan => true | _ => false end.
Definition ltb : float -> float -> bool := SFltb.
Definition leb : float -> float -> bool := SFleb.
Definition eqb : float -> float -> bool := SFeqb.
Definition sub : float -> float -> float := SFsub prec emax.
Definition abs : float -> float := SFabs.
(** [a > b] is [b < a]. *)
Definition gtb (a b : float) : bool := ltb b a.

(** The float nearest to an integer literal. *)
Definition of_Z (z : Z) : float := binary_normalize prec emax z 0 false.
Definition nan : float := S754_nan.
End F32.
Abbreviation float := F32.float.

(** ** Constants of the sketch *)

Definition ROWS : Z := 4.
Definition COLS : Z := 4.
Definition EVENT_WAIT_TIME : Z := 60000.
Definition LM393_sample_interval : Z := 10 * 1000.

(** ** Global variables *)

Record State : Type := mkState {
  globalToggleStates : gmap string bool;
  deviceIsOn : bool;
  temperature : float;
  humidity : float;
  lastTemperature : float;
  lastHumidity : float;
  lastEvent : Z;
  LM393_previous_millis : Z
}.

(** The values the globals hold when [setup] starts: statics are zeroed,
    [lastEvent] is [(unsigned long)(-EVENT_WAIT_TIME)]. *)
Definition initial_state : State :=
  {| globalToggleStates := ∅;
     deviceIsOn := false;
     temperature := S754_zero false;
     humidity := S754_zero false;
     lastTemperature := S754_zero false;
     lastHumidity := S754_zero false;
     lastEvent := to_ulong (- EVENT_WAIT_TIME);
     LM393_previous_millis := 0 |}.

Definition set_globalToggleStates (m : gmap string bool) (s : State) : State :=
  mkState m (deviceIsOn s) (temperature s) (humidity s)
          (lastTemperature s) (lastHumidity s) (lastEvent s)
          (LM393_previous_millis s).
Definition set_temperature (x : float) (s : State) : State :=
  mkState (globalToggleStates s) (deviceIsOn s) x (humidity s)
          (lastTemperature s) (lastHumidity s) (lastEvent s)
          (LM393_previous_millis s).
Definition set_humidity (x : float) (s : State) : State :=
  mkState (globalToggleStates s) (deviceIsOn s) (temperature s) x
          (lastTemperature s) (lastHumidity s) (lastEvent s)
          (LM393_previous_millis s).
Definition set_lastTemperature (x : float) (s : State) : State :=
  mkState (globalToggleStates s) (deviceIsOn s) (temperature s) (humidity s)
          x (lastHumidity s) (lastEvent s) (LM393_previous_millis s).
Definition set_lastHumidity (x : float) (s : State) : State :=
  mkState (globalToggleStates s) (deviceIsOn s) (temperature s) (humidity s)
          (lastTemperature s) x (lastEvent s) (LM393_previous_millis s).
Definition set_lastEvent (x : Z) (s : State) : State :=
  mkState (globalToggleStates s) (deviceIsOn s) (temperature s) (humidity s)
          (lastTemperature s) (lastHumidity s) x (LM393_previous_millis s).
Definition set_LM393_previous_millis (x : Z) (s : State) : State :=
  mkState (globalToggleStates s) (deviceIsOn s) (temperature s) (humidity s)
          (lastTemperature s) (lastHumidity s) (lastEvent s) x.

(** ** Observable effects *)

Inductive Handler : Type :=
  | HSinricPro | HKeypad | HRainSensor | HTemperaturesensor | HDisplay.

(** What a run leaves behind, in order: the lines written to [Serial], the
    calls made on the Sinric Pro device, and a mark each time [loop] enters
    one of its callees. *)
Inductive Event : Type :=
  | Enter (h : Handler)
  | SerialToggle (deviceId instance : string) (state : bool)
  | SerialDHTFailed
  | SerialReading (t h : float)
  | SerialSendFailed
  | SerialRain (analog digital : Z)
  | SerialDisplay (t h : float)
  | SendTemperatureEvent (t h : float)
  | SendPushNotification (text : string).

(** ** Function bodies

    A body of result type [R] runs on the globals, appends to the trace and
    either goes on with a value ([inl]) or has executed [return r] ([inr]),
    which skips the rest of that body and of nothing else. *)
Definition M (R A : Type) : Type := State -> (A + R) * State * list Event.

Definition pure {R A} (a : A) : M R A := fun s => (inl a, s, []).

Definition bind {R A B} (m : M R A) (k : A -> M R B) : M R B :=
  fun s =>
    match m s with
    | (inl a, s1, t1) =>
        let '(r, s2, t2) := k a s1 in (r, s2, t1 ++ t2)
    | (inr r, s1, t1) => (inr r, s1, t1)
    end.

Definition return_ {R A} (r : R) : M R A := fun s => (inr r, s, []).
Definition read {R A} (f : State -> A) : M R A := fun s => (inl (f s), s, []).
Definition write {R} (f : State -> State) : M R unit :=
  fun s => (inl tt, f s, []).
Definition emit {R} (e : Event) : M R unit := fun s => (inl tt, s, [e]).

(** Calling a function: its [return] ends the callee, the caller goes on. *)
Definition call {R R'} (body : M R R) : M R' R :=
  fun s =>
    match body s with
    | (inl r, s', t) | (inr r, s', t) => (inl r, s', t)
    end.

Declare Scope body_scope.
Delimit Scope body_scope with body.
Notation "x <- m ;; k" := (bind m (fun x => k))
  (at level 100, m at next level, right associativity) : body_scope.
Notation "m ;; k" := (bind m (fun _ => k))
  (at level 100, right associativity) : body_scope.

(** Running a whole function from the globals [s]: its result, whether it
    fell off the end or returned early, the globals and the trace it leaves. *)
Definition run {R} (body : M R R) (s : State) : R * State * list Event :=
  match body s with
  | (inl r, s', t) | (inr r, s', t) => (r, s', t)
  end.

Definition result_of {R} (r : R * State * list Event) : R := fst (fst r).
Definition final_state {R} (r : R * State * list Event) : State :=
  snd (fst r).
Definition trace_of {R} (r : R * State * list Event) : list Event := snd r.

(** ** IntervalGate: [check_interval]

    [previousMillis] is passed by pointer: the function is given the pointee
    and returns the value it leaves there.  [millis] is what [millis()]
    returns at the call. *)
Definition check_interval (millis previousMillis interval : Z) : bool * Z :=
  let currentMillis := millis in
  if to_ulong (currentMillis - previousMillis) >=? to_ulong interval
  then (true, currentMillis)
  else (false, previousMillis).

(** ** KeyDecoder: [keymap] and [get_key] *)

Definition keymap : list (list ascii) :=
  [ ["1"; "2"; "3"; "A"];
    ["4"; "5"; "6"; "B"];
    ["7"; "8"; "9"; "C"];
    ["*"; "0"; "#"; "D"] ]%char.

(** A read of [keymap[i][j]].  The array is [char keymap[ROWS][COLS]]; an
    index outside it is a read past the object, which C++ leaves undefined:
    the model reports it instead of inventing a character. *)
Inductive lookup : Type :=
  | Sym (c : ascii)
  | OutOfBounds (i j : Z).

Definition keymap_at (i j : Z) : lookup :=
  if (0 <=? i) && (i <? ROWS) && (0 <=? j) && (j <? COLS)
  then Sym (nth (Z.to_nat j) (nth (Z.to_nat i) keymap []) Ascii.zero)
  else OutOfBounds i j.

(** What [get_key] prints for an event: the edge, [row], [col] and the
    character read from the table. *)
Record KeyLine : Type := mkKeyLine {
  pressed : bool;
  row : Z;
  col : Z;
  printed : lookup
}.

(** [pending] is [Some k] when [keypad.available()] is non-zero and
    [keypad.getEvent()] returns the byte [k]; [None] when nothing is pending,
    where [get_key] returns the character 0 and prints nothing. *)
Definition get_key (pending : option Z) : option KeyLine * lookup :=
  match pending with
  | Some k =>
      let pressed := negb (Z.land k 128 =? 0) in
      let k := Z.land k 127 in
      let k := k - 1 in
      let row := to_uint8 (Z.quot k 10) in
      let col := to_uint8 (Z.rem k 10) in
      (Some (mkKeyLine pressed row col (keymap_at col row)), keymap_at col row)
  | None => (None, Sym Ascii.zero)
  end.

(** ** Callbacks *)

Definition onToggleState (deviceId instance : string) (state : bool)
  : M bool bool :=
  (emit (SerialToggle deviceId instance state) ;;
   write (fun s => set_globalToggleStates
                     (<[instance := state]> (globalToggleStates s)) s) ;;
   return_ true)%body.

(** ** Handlers *)

(** One call of [handleTemperaturesensor].  [millis], [getTemperature] and
    [getHumidity] are what the clock and the DHT driver return during the
    call; [sendTemperatureEvent t h] is the success flag the Sinric Pro
    device returns for that event. *)
Definition handleTemperaturesensor
    (millis : Z) (getTemperature getHumidity : float)
    (sendTemperatureEvent : float -> float -> bool) : M unit unit :=
  (on <- read deviceIsOn ;;
   (if Bool.eqb on false then return_ tt else pure tt) ;;
   let actualMillis := millis in
   last <- read lastEvent ;;
   (if to_ulong (actualMillis - last) <? to_ulong EVENT_WAIT_TIME
    then return_ tt else pure tt) ;;
   write (set_temperature getTemperature) ;;
   write (set_humidity getHumidity) ;;
   t <- read temperature ;;
   h <- read humidity ;;
   (if F32.isnan t || F32.isnan h
    then (emit SerialDHTFailed ;; return_ tt)
    else pure tt) ;;
   lt <- read lastTemperature ;;
   lh <- read lastHumidity ;;
   (if F32.eqb t lt && F32.eqb h lh then pure tt else pure tt) ;;
   emit (SendTemperatureEvent t h) ;;
   let success := sendTemperatureEvent t h in
   (if success
    then emit (SerialReading t h)
    else (emit SerialSendFailed ;; return_ tt)) ;;
   write (set_lastTemperature t) ;;
   write (set_lastHumidity h) ;;
   write (set_lastEvent actualMillis))%body.

(** One call of [handleRainSensor]; [analog] and [digital] are the values
    [analogRead(rainAnalog)] and [digitalRead(rainDigital)] return. *)
Definition handleRainSensor (millis analog digital : Z) : M unit unit :=
  (* check_interval(&LM393_previous_millis, ...): the pointee goes in and
     what the callee leaves there is stored back *)
  (prev <- read LM393_previous_millis ;;
   let '(fired, prev') := check_interval millis prev LM393_sample_interval in
   write (set_LM393_previous_millis prev') ;;
   if fired then
     let rainAnalogVal := analog in
     let rainDigitalVal := digital in
     emit (SerialRain rainAnalogVal rainDigitalVal)
   else pure tt)%body.

(** [handleKeypad]: the [switch (get_key())] is commented out in the source;
    the body is empty. *)
Definition handleKeypad : M unit unit := pure tt.

Definition handleDisplay : M unit unit :=
  (t <- read temperature ;;
   h <- read humidity ;;
   emit (SerialDisplay t h))%body.

(** ** Events sent to the server *)

Definition sendPushNotification (notification : string) : M unit unit :=
  emit (SendPushNotification notification).

(** ** The control loop *)

(** What the outside world supplies during one iteration of [loop]. *)
Record World : Type := mkWorld {
  toggle_requests : list (string * string * bool);
  rain_millis : Z;
  rain_analog : Z;
  rain_digital : Z;
  dht_millis : Z;
  dht_temperature : float;
  dht_humidity : float;
  send_result : float -> float -> bool
}.

(** [SinricPro.handle()]: the library delivers each pending toggle request
    to the registered callback. *)
Fixpoint SinricPro_handle (reqs : list (string * string * bool))
  : M unit unit :=
  match reqs with
  | [] => pure tt
  | (deviceId, instance, state) :: reqs' =>
      (_ <- call (onToggleState deviceId instance state) ;;
       SinricPro_handle reqs')%body
  end.

Definition enter {R} (h : Handler) (body : M unit unit) : M R unit :=
  (emit (Enter h) ;; call body)%body.

Definition loop (w : World) : M unit unit :=
  (enter HSinricPro (SinricPro_handle (toggle_requests w)) ;;
   enter HKeypad handleKeypad ;;
   enter HRainSensor
     (handleRainSensor (rain_millis w) (rain_analog w) (rain_digital w)) ;;
   enter HTemperaturesensor
     (handleTemperaturesensor (dht_millis w) (dht_temperature w)
        (dht_humidity w) (send_result w)) ;;
   enter HDisplay handleDisplay)%body.

(** [setup], after the keypad, the network and the Sinric Pro device are
    initialised: the start-up notification and one call of each sampler. *)
Definition setup (w : World) : M unit unit :=
  (call (sendPushNotification "ESP Device is online") ;;
   call (handleRainSensor (rain_millis w) (rain_analog w) (rain_digital w)) ;;
   call (handleTemperaturesensor (dht_millis w) (dht_temperature w)
           (dht_humidity w) (send_result w)))%body.

(** The Arduino core calls [setup] once and then [loop] for ever; [ws] holds
    what the world supplies to the first iterations. *)
Fixpoint iterations (ws : list World) : M unit unit :=
  match ws with
  | [] => pure tt
  | w :: ws' => (call (loop w) ;; iterations ws')%body
  end.

Definition sketch (w0 : World) (ws : list World) : M unit unit :=
  (call (setup w0) ;; iterations ws)%body.

(** ** ActuationPolicy

    The sketch announces the policy in its header comment (lines 31-34) and
    contains no code for it: there are no thresholds, no verdict and no
    caller of [sendPushNotification] other than [setup]. *)
Module ActuationPolicy.

Inductive Validity : Type := Valid | Invalid.

Record Reading : Type := mkReading {
  reading_temperature : float;
  reading_humidity : float;
  validity : Validity;
  timestamp : Z
}.

Record RainState : Type := mkRainState {
  analogLevel : Z;
  isWet : bool;
  rain_timestamp : Z
}.

Record Thresholds : Type := mkThresholds {
  tempLow : float;
  tempHigh : float;
  humidityTarget : float;
  humidityTolerance : float
}.

Inductive Window : Type := Open | Closed.

(** [NoReason] is the spec's [None]. *)
Inductive AlertReason : Type :=
  | NoReason | TempLow | TempHigh | HumidityOut | Rain.

Record WindowVerdict : Type := mkVerdict {
  window : Window;
  reason : AlertReason
}.

(** The four tests of the decision list, in the order of the list. *)
Definition rain_test (rainState : RainState) : bool := isWet rainState.
Definition temp_low_test (r : Reading) (t : Thresholds) : bool :=
  F32.ltb (reading_temperature r) (tempLow t).
Definition temp_high_test (r : Reading) (t : Thresholds) : bool :=
  F32.gtb (reading_temperature r) (tempHigh t).
Definition humidity_deviation (r : Reading) (t : Thresholds) : float :=
  F32.abs (F32.sub (reading_humidity r) (humidityTarget t)).
Definition humidity_test (r : Reading) (t : Thresholds) : bool :=
  F32.gtb (humidity_deviation r t) (humidityTolerance t).

(** Modelled from the spec: [evaluate], the decision function of
    ActuationPolicy, which the source does not contain.  It follows the
    decision list of section 4.5, first match wins. *)
Definition evaluate (reading : Reading) (rainState : RainState)
    (thresholds : Thresholds) : WindowVerdict :=
  if rain_test rainState then mkVerdict Closed Rain
  else if temp_low_test reading thresholds then mkVerdict Closed TempLow
  else if temp_high_test reading thresholds then mkVerdict Closed TempHigh
  else if humidity_test reading thresholds then mkVerdict Closed HumidityOut
  else mkVerdict Open NoReason.

(** The condition under which the spec's testable property says [Open]. *)
Definition within_limits (r : Reading) (t : Thresholds) : bool :=
  F32.leb (tempLow t) (reading_temperature r)
  && F32.leb (reading_temperature r) (tempHigh t)
  && F32.leb (humidity_deviation r t) (humidityTolerance t).

(** None of the values the decision list compares is a NaN. *)
Definition comparable (r : Reading) (t : Thresholds) : bool :=
  negb (F32.isnan (reading_temperature r))
  && negb (F32.isnan (tempLow t))
  && negb (F32.isnan (tempHigh t))
  && negb (F32.isnan (humidity_deviation r t))
  && negb (F32.isnan (humidityTolerance t)).

Definition window_eqb (a b : Window) : bool :=
  match a, b with
  | Open, Open | Closed, Closed => true
  | _, _ => false
  end.

Definition reason_eqb (a b : AlertReason) : bool :=
  match a, b with
  | NoReason, NoReason | TempLow, TempLow | TempHigh, TempHigh
  | HumidityOut, HumidityOut | Rain, Rain => true
  | _, _ => false
  end.

Definition verdict_eqb (a b : WindowVerdict) : bool :=
  window_eqb (window a) (window b) && reason_eqb (reason a) (reason b).

(** A [Closed] verdict with a reason other than [None]. *)
Definition is_alert (v : WindowVerdict) : bool :=
  window_eqb (window v) Closed && negb (reason_eqb (reason v) NoReason).

Definition alert_text (r : AlertReason) : string :=
  match r with
  | NoReason => "none"
  | TempLow => "temperature below the lower limit"
  | TempHigh => "temperature above the upper limit"
  | HumidityOut => "humidity out of range"
  | Rain => "rain detected"
  end.

(** Modelled from the spec: the notification step of ActuationPolicy,
    absent from the source.  The policy state is the previously emitted
    verdict; an evaluation dispatches a push notification when its verdict
    is an alert and differs from that one, and then records its verdict. *)
Definition notify (previous : WindowVerdict) (v : WindowVerdict)
  : WindowVerdict * list Event :=
  (v,
   if is_alert v && negb (verdict_eqb v previous)
   then [SendPushNotification (alert_text (reason v))]
   else []).

Definition Input : Type := Reading * RainState * Thresholds.

Definition evaluate_input (x : Input) : WindowVerdict :=
  let '(r, rain, t) := x in evaluate r rain t.

(** A sequence of evaluations: what each one dispatches, in order. *)
Fixpoint evaluations (previous : WindowVerdict) (xs : list Input)
  : list (list Event) :=
  match xs with
  | [] => []
  | x :: xs' =>
      let '(previous', out) := notify previous (evaluate_input x) in
      out :: evaluations previous' xs'
  end.

End ActuationPolicy.

(** ** Reading a trace *)

(** The map after a batch of toggle requests, and the line each one logs. *)
Definition apply_toggles (reqs : list (string * string * bool))
    (m : gmap string bool) : gmap string bool :=
  fold_left (fun m r => <[snd (fst r) := snd r]> m) reqs m.

Definition toggle_line (r : string * string * bool) : Event :=
  SerialToggle (fst (fst r)) (snd (fst r)) (snd r).

(** The callees [loop] entered, in order. *)
Fixpoint entered (tr : list Event) : list Handler :=
  match tr with
  | [] => []
  | Enter h :: tr' => h :: entered tr'
  | _ :: tr' => entered tr'
  end.

(** The readings [handleDisplay] was given, in order. *)
Fixpoint displayed (tr : list Event) : list (float * float) :=
  match tr with
  | [] => []
  | SerialDisplay t h :: tr' => (t, h) :: displayed tr'
  | _ :: tr' => displayed tr'
  end.

(** The last known reading: the baseline [handleTemperaturesensor] keeps in
    [lastTemperature] and [lastHumidity] (the source comments them as
    "last known temperature" and "last known humidity"). *)
Definition last_known (s : State) : float * float :=
  (lastTemperature s, lastHumidity s).

(** The actual reading: the globals [temperature] and [humidity] (the source
    comments them as "actual temperature" and "actual humidity"). *)
Definition actual (s : State) : float * float :=
  (temperature s, humidity s).

Definition is_send (e : Event) : bool :=
  match e with SendTemperatureEvent _ _ => true | _ => false end.

Definition is_push (e : Event) : bool :=
  match e with SendPushNotification _ => true | _ => false end.

(** The samples of a call of [handleTemperaturesensor] reach the globals
    [temperature] and [humidity] as soon as they are read, before any check. *)
Definition sampled (t h : float) (s : State) : State :=
  set_humidity h (set_temperature t s).

(** The baseline after an accepted sample. *)
Definition promoted (millis : Z) (t h : float) (s : State) : State :=
  set_lastEvent millis (set_lastHumidity h (set_lastTemperature t (sampled t h s))).

(** The gate of [handleTemperaturesensor]: switched on, and at least
    [EVENT_WAIT_TIME] since the last accepted event. *)
Definition gate_open (millis : Z) (s : State) : bool :=
  deviceIsOn s && negb (to_ulong (millis - lastEvent s) <? EVENT_WAIT_TIME).

(** [handleRainSensor] fires when its own timer, [LM393_previous_millis], is
    at least [LM393_sample_interval] behind the clock. *)
Definition rain_gate_open (millis : Z) (s : State) : bool :=
  LM393_sample_interval <=? to_ulong (millis - LM393_previous_millis s).

(** A sample is accepted when the gate is open, neither value is a NaN and
    the server took the event. *)
Definition accepted (millis : Z) (t h : float)
    (send : float -> float -> bool) (s : State) : bool :=
  gate_open millis s && negb (F32.isnan t || F32.isnan h) && send t h.

(** The statement that an iteration of [loop] hands the display the last
    known reading. *)
Definition display_gets_last_known (w : World) (s : State) : Prop :=
  let r := run (loop w) s in
  displayed (trace_of r) = [last_known (final_state r)].

(** The byte the keypad controller queues for the key at [row], [col]:
    the 1-based index [row * 10 + col + 1], with bit 7 set on a press. *)
Definition raw_event (press : bool) (row col : Z) : Z :=
  (if press then 128 else 0) + (row * 10 + col + 1).

(** ** Concrete scenarios *)

(** Globals after an accepted sample of 22 degrees and 50 percent at time
    1000, with the temperature sensor switched on. *)
Definition running_state : State :=
  {| globalToggleStates := ∅;
     deviceIsOn := true;
     temperature := F32.of_Z 22;
     humidity := F32.of_Z 50;
     lastTemperature := F32.of_Z 22;
     lastHumidity := F32.of_Z 50;
     lastEvent := 1000;
     LM393_previous_millis := 1000 |}.

Definition send_succeeds : float -> float -> bool := fun _ _ => true.
Definition send_fails : float -> float -> bool := fun _ _ => false.

(** An iteration, 70 seconds later, in which the DHT driver fails to read
    the temperature. *)
Definition glitch_world : World :=
  {| toggle_requests := [];
     rain_millis := 71000;
     rain_analog := 4095;
     rain_digital := 1;
     dht_millis := 71000;
     dht_temperature := F32.nan;
     dht_humidity := F32.of_Z 50;
     send_result := send_succeeds |}.

(** The verdict emitted just before evaluation number [i] of a run that
    starts with [previous] as the last emitted verdict. *)
Definition verdict_before (previous : ActuationPolicy.WindowVerdict)
    (xs : list ActuationPolicy.Input) (i : nat)
  : ActuationPolicy.WindowVerdict :=
  match i with
  | O => previous
  | S j =>
      match xs !! j with
      | Some x => ActuationPolicy.evaluate_input x
      | None => previous
      end
  end.

(** The push notification of an alert verdict. *)
Definition push_for (v : ActuationPolicy.WindowVerdict) : Event :=
  SendPushNotification (ActuationPolicy.alert_text (ActuationPolicy.reason v)).

(** The statement that, rain apart, [evaluate] opens exactly within the
    limits. *)
Definition opens_iff_within_limits (r : ActuationPolicy.Reading)
    (rain : ActuationPolicy.RainState) (t : ActuationPolicy.Thresholds)
  : Prop :=
  ActuationPolicy.window (ActuationPolicy.evaluate r rain t)
  = ActuationPolicy.Open
  <-> ActuationPolicy.within_limits r t = true.

(** The thresholds and readings of the scenarios of the specification. *)
Definition scenario_thresholds : ActuationPolicy.Thresholds :=
  ActuationPolicy.mkThresholds
    (F32.of_Z 15) (F32.of_Z 28) (F32.of_Z 50) (F32.of_Z 10).

Definition dry : ActuationPolicy.RainState :=
  ActuationPolicy.mkRainState 4095 false 0.

Definition wet : ActuationPolicy.RainState :=
  ActuationPolicy.mkRainState 1200 true 0.

Definition mild_reading : ActuationPolicy.Reading :=
  ActuationPolicy.mkReading (F32.of_Z 22) (F32.of_Z 50) ActuationPolicy.Valid 0.

Definition hot_reading : ActuationPolicy.Reading :=
  ActuationPolicy.mkReading (F32.of_Z 30) (F32.of_Z 50) ActuationPolicy.Valid 0.

Definition cold_damp_reading : ActuationPolicy.Reading :=
  ActuationPolicy.mkReading (F32.of_Z 5) (F32.of_Z 90) ActuationPolicy.Valid 0.

(** A day that turns hot and stays hot. *)
Definition heat_wave : list ActuationPolicy.Input :=
  [ (mild_reading, dry, scenario_thresholds);
    (hot_reading, dry, scenario_thresholds);
    (hot_reading, dry, scenario_thresholds);
    (hot_reading, dry, scenario_thresholds) ].

(** A reading whose temperature the driver could not produce. *)
Definition glitch_reading : ActuationPolicy.Reading :=
  ActuationPolicy.mkReading F32.nan (F32.of_Z 50) ActuationPolicy.Invalid 0.

(** ** Runs of calls *)

(** [check_interval] called at the times [ts], counted in milliseconds since
    power-up without bound; the clock shows each of them modulo 2^32.  The
    result is the list of the times at which the gate fired. *)
Fixpoint fire_times (period previousMillis : Z) (ts : list Z) : list Z :=
  match ts with
  | [] => []
  | t :: ts' =>
      let '(fired, previousMillis') :=
        check_interval (to_ulong t) previousMillis period in
      if fired then t :: fire_times period previousMillis' ts'
      else fire_times period previousMillis' ts'
  end.

(** Times that never go back, from [last] on. *)
Fixpoint nondecreasing (last : Z) (ts : list Z) : Prop :=
  match ts with
  | [] => True
  | t :: ts' => last <= t /\ nondecreasing t ts'
  end.

(** Each time is at least [period] after the one before it. *)
Fixpoint spaced (period last : Z) (ts : list Z) : Prop :=
  match ts with
  | [] => True
  | t :: ts' => period <= t - last /\ spaced period t ts'
  end.

(** What one call of [handleTemperaturesensor] meets: the clock and the two
    values of the DHT driver. *)
Record DhtCall : Type := mkDhtCall {
  call_millis : Z;
  call_temperature : float;
  call_humidity : float
}.

(** [handleTemperaturesensor] called once per element of [cs], as successive
    iterations of [loop] do. *)
Fixpoint handleTemperaturesensor_calls (cs : list DhtCall)
    (sendTemperatureEvent : float -> float -> bool) : M unit unit :=
  match cs with
  | [] => pure tt
  | c :: cs' =>
      (call (handleTemperaturesensor (call_millis c) (call_temperature c)
               (call_humidity c) sendTemperatureEvent) ;;
       handleTemperaturesensor_calls cs' sendTemperatureEvent)%body
  end.

Definition send_of (c : DhtCall) : Event :=
  SendTemperatureEvent (call_temperature c) (call_humidity c).

(** The call is made with the gate of [s] open and a sample free of NaN. *)
Definition sendable (s : State) (c : DhtCall) : Prop :=
  gate_open (call_millis c) s = true
  /\ F32.isnan (call_temperature c) = false
  /\ F32.isnan (call_humidity c) = false.

(** What the world supplies two seconds after power-up. *)
Definition early_world : World :=
  {| toggle_requests := [];
     rain_millis := 2000;
     rain_analog := 4095;
     rain_digital := 1;
     dht_millis := 2000;
     dht_temperature := F32.of_Z 22;
     dht_humidity := F32.of_Z 50;
     send_result := send_succeeds |}.

(** Three calls in a row, 70 s after the baseline of [running_state]. *)
Definition refused_calls : list DhtCall :=
  [ mkDhtCall 71000 (F32.of_Z 30) (F32.of_Z 50);
    mkDhtCall 71005 (F32.of_Z 30) (F32.of_Z 51);
    mkDhtCall 71010 (F32.of_Z 31) (F32.of_Z 51) ].

(** The globals at power-up, with the temperature sensor switched on. *)
Definition switched_on_state : State :=
  mkState ∅ true (S754_zero false) (S754_zero false) (S754_zero false)
          (S754_zero false) (to_ulong (- EVENT_WAIT_TIME)) 0.

(** A run [r] from the globals [s] in which the temperature sensor stayed
    idle: nothing was sent, the readings and the gate are those of [s], and
    every line the display handler wrote shows the reading of [s]. *)
Definition sensor_idle (s : State) (r : unit * State * list Event) : Prop :=
  deviceIsOn (final_state r) = false
  /\ actual (final_state r) = actual s
  /\ last_known (final_state r) = last_known s
  /\ lastEvent (final_state r) = lastEvent s
  /\ List.filter is_send (trace_of r) = []
  /\ List.Forall (fun d => d = actual s) (displayed (trace_of r)).

(** ** Reading the keypad *)

(** [testKeypad]: the decoding of [get_key] once more, under
    [keypad.available() > 0] and with nothing returned.  [available] is the
    count the controller reports, [getEvent] the byte it would hand out. *)
Definition testKeypad (available getEvent : Z) : option KeyLine :=
  if available >? 0 then
    let k := getEvent in
    let pressed := negb (Z.land k 128 =? 0) in
    let k := Z.land k 127 in
    let k := k - 1 in
    let row := to_uint8 (Z.quot k 10) in
    let col := to_uint8 (Z.rem k 10) in
    Some (mkKeyLine pressed row col (keymap_at col row))
  else None.

(** What [get_key] sees of the controller: [if (keypad.available())] takes
    any non-zero count as an event. *)
Definition pending_of (available getEvent : Z) : option Z :=
  if available =? 0 then None else Some getEvent.

(** The 256 values of a byte. *)
Definition all_bytes : list Z := List.map Z.of_nat (List.seq 0 256).

(** The read stayed inside the table. *)
Definition in_table (l : lookup) : bool :=
  match l with Sym _ => true | OutOfBounds _ _ => false end.

(** The character [get_key] returns when nothing is pending. *)
Definition is_no_key (l : lookup) : bool :=
  match l with Sym c => Ascii.eqb c Ascii.zero | OutOfBounds _ _ => false end.

(** The byte carries the index of one of the 16 keys of the 4x4 matrix. *)
Definition matrix_byte (k : Z) : bool :=
  let index := k mod 128 - 1 in
  (0 <=? index) && (index / 10 <? ROWS) && (index mod 10 <? COLS).

(** ** Batches of toggle requests *)

(** The state the last request of the batch addressed to [instance] asks
    for, if any request is addressed to it. *)
Fixpoint last_request (instance : string)
    (reqs : list (string * string * bool)) : option bool :=
  match reqs with
  | [] => None
  | (_, j, b) :: reqs' =>
      match last_request instance reqs' with
      | Some b' => Some b'
      | None => if String.eqb instance j then Some b else None
      end
  end.

(** ** Power-up *)

(** What [setup] and the functions it calls do to the hardware and the
    libraries before the samplers run; [Sketch e] is an event of the running
    sketch. *)
Inductive BootEvent : Type :=
  | Sketch (e : Event)
  | SerialBegin (baud : Z)
  | PinModeInput (pin : Z)
  | KeypadBegin
  | KeypadMatrix (rows cols : Z)
  | KeypadFlush
  | SerialPrintln (line : string)
  | SerialPrint (text : string)
  | WiFiSetSleep (on : bool)
  | WiFiSetAutoReconnect (on : bool)
  | WiFiBegin
  | Delay (ms : Z)
  | RegisterToggle (instance : string)
  | RegisterOnConnected
  | RegisterOnDisconnected
  | SinricProBegin.

(** How a function that may not come back ends: it returns; or it sits in
    its [while (1);] for ever; or it is still waiting when the observation
    stops. *)
Inductive Outcome : Type :=
  | Returns (tr : list BootEvent)
  | Trapped (tr : list BootEvent)
  | Waiting (tr : list BootEvent).

Definition events_of (o : Outcome) : list BootEvent :=
  match o with Returns tr | Trapped tr | Waiting tr => tr end.

(** Sequencing: what follows runs only after a return. *)
Definition and_then (o : Outcome) (k : Outcome) : Outcome :=
  match o with
  | Returns tr =>
      match k with
      | Returns tr' => Returns (tr ++ tr')
      | Trapped tr' => Trapped (tr ++ tr')
      | Waiting tr' => Waiting (tr ++ tr')
      end
  | Trapped tr => Trapped tr
  | Waiting tr => Waiting tr
  end.

Definition SSID : string := "Pixel_7137".

(** Carriage return and line feed, the [\r\n] of the format strings. *)
Definition CRLF : string :=
  String "013"%char (String "010"%char EmptyString).

Definition rainAnalog : Z := 36.
Definition rainDigital : Z := 17.
Definition BAUD_RATE : Z := 115200.

(** [setupKeypad]; [begin_ok] is what [keypad.begin] returns. *)
Definition setupKeypad (begin_ok : bool) : Outcome :=
  if negb begin_ok
  then Trapped [KeypadBegin; SerialPrintln "Keypad not found!"]
  else Returns [KeypadBegin; SerialPrintln "Keypad initialized!";
                KeypadMatrix ROWS COLS; KeypadFlush].

(** The [while (WiFi.status() != WL_CONNECTED)] of [setupWiFi].
    [connected n] tells whether poll number [n] of the status finds the
    connection up; [polls] bounds how many polls are observed. *)
Fixpoint wifi_wait (polls : nat) (connected : nat -> bool) (n : nat)
  : Outcome :=
  match polls with
  | O => Waiting []
  | S polls' =>
      if connected n then Returns []
      else and_then (Returns [SerialPrint "."; Delay 250])
                    (wifi_wait polls' connected (S n))
  end.

(** [setupWiFi], on the ESP32 branch of its conditional compilation. *)
Definition setupWiFi (polls : nat) (connected : nat -> bool) : Outcome :=
  and_then (Returns [WiFiSetSleep false; WiFiSetAutoReconnect true;
                     WiFiBegin;
                     SerialPrint (String.append "[WiFi]: Connecting to " SSID)])
    (and_then (wifi_wait polls connected 0)
       (Returns [SerialPrint (String.append "connected" CRLF)])).

(** [setupSinricPro]: the toggle callback, the two connection callbacks,
    and [SinricPro.begin]. *)
Definition setupSinricPro : Outcome :=
  Returns [RegisterToggle "toggleInstance1"; RegisterOnConnected;
           RegisterOnDisconnected; SinricProBegin].

(** [setup] from its first line: the serial port and the pins, the keypad,
    the network, the Sinric Pro device, and then the part modelled by
    [setup] above, run on the globals [s]. *)
Definition power_up (begin_ok : bool) (polls : nat) (connected : nat -> bool)
    (w : World) (s : State) : Outcome :=
  and_then (Returns [SerialBegin BAUD_RATE; PinModeInput rainDigital;
                     PinModeInput rainAnalog])
    (and_then (setupKeypad begin_ok)
       (and_then (setupWiFi polls connected)
          (and_then setupSinricPro
             (Returns (List.map Sketch (trace_of (run (setup w) s))))))).

Definition is_sketch (e : BootEvent) : bool :=
  match e with Sketch _ => true | _ => false end.

Definition is_dot (e : BootEvent) : bool :=
  match e with SerialPrint "." => true | _ => false end.

(** The dots and pauses of [n] unsuccessful polls. *)
Fixpoint dots (n : nat) : list BootEvent :=
  match n with
  | O => []
  | S n' => SerialPrint "." :: Delay 250 :: dots n'
  end.

(** The network comes up at poll number [n] and not before. *)
Definition connects_at (connected : nat -> bool) (n : nat) : Prop :=
  connected n = true /\ forall m : nat, (m < n)%nat -> connected m = false.

(** A network that comes up at the fourth poll, and one that never does. *)
Definition up_at_poll_3 : nat -> bool := fun n => (3 <=? n)%nat.
Definition never_up : nat -> bool := fun _ => false.

(** A number: a zero or a finite value, neither a NaN nor an infinity. *)
Definition is_number (x : float) : bool :=
  match x with
  | S754_zero _ | S754_finite _ _ _ => true
  | S754_infinity _ | S754_nan => false
  end.

(** The reading and the thresholds hold numbers throughout. *)
Definition all_numbers (r : ActuationPolicy.Reading)
    (t : ActuationPolicy.Thresholds) : bool :=
  is_number (ActuationPolicy.reading_temperature r)
  && is_number (ActuationPolicy.reading_humidity r)
  && is_number (ActuationPolicy.tempLow t)
  && is_number (ActuationPolicy.tempHigh t)
  && is_number (ActuationPolicy.humidityTarget t)
  && is_number (ActuationPolicy.humidityTolerance t).

(** * Properties *)

(** ** IntervalGate *)

Lemma to_ulong_small (z : Z) : 0 <= z < ULONG_MOD -> to_ulong z = z.
Proof. intros Hz. unfold to_ulong. now apply Z.mod_small. Qed.

Lemma to_ulong_long_nonneg (z : Z) : 0 <= z <= LONG_MAX -> to_ulong z = z.
Proof.
  intros Hz. apply to_ulong_small.
  unfold LONG_MAX, ULONG_MOD in *. lia.
Qed.

(** A negative [long] interval is compared as the unsigned value it converts
    to: the gate then asks for a difference of at least [interval + 2^32]. *)
Lemma to_ulong_long_negative (z : Z) :
  - LONG_MAX - 1 <= z < 0 -> to_ulong z = z + ULONG_MOD.
Proof.
  intros Hz. unfold to_ulong, LONG_MAX, ULONG_MOD in *.
  rewrite <- (Z.mod_add z 1 (2 ^ 32)) by lia.
  apply Z.mod_small. lia.
Qed.

Lemma check_interval_fires (millis previousMillis interval : Z) :
  to_ulong interval <= to_ulong (millis - previousMillis) ->
  check_interval millis previousMillis interval = (true, millis).
Proof.
  intros Hge. unfold check_interval.
  destruct (Z.geb_spec (to_ulong (millis - previousMillis)) (to_ulong interval));
    [reflexivity | lia].
Qed.

Lemma check_interval_holds (millis previousMillis interval : Z) :
  to_ulong (millis - previousMillis) < to_ulong interval ->
  check_interval millis previousMillis interval = (false, previousMillis).
Proof.
  intros Hlt. unfold check_interval.
  destruct (Z.geb_spec (to_ulong (millis - previousMillis)) (to_ulong interval));
    [lia | reflexivity].
Qed.

(** The unsigned difference recovers the time that really passed, also when
    the counter wrapped in between. *)
Lemma elapsed_recovered (previousMillis elapsed : Z) :
  0 <= elapsed < ULONG_MOD ->
  to_ulong (to_ulong (previousMillis + elapsed) - previousMillis) = elapsed.
Proof.
  intros He. unfold to_ulong.
  rewrite Zminus_mod_idemp_l.
  replace (previousMillis + elapsed - previousMillis) with elapsed by lia.
  now apply Z.mod_small.
Qed.

(** C2. For a timer whose [lastFired] is [previousMillis] and whose period is
    a duration (a non-negative [long]), and a clock value [millis]:
    [check_interval] returns true and stores [millis] exactly when the
    unsigned difference [(millis - previousMillis) mod 2^32] is at least the
    period; otherwise it returns false and leaves the timer as it was.  When
    [elapsed] milliseconds (less than one full turn of the counter) passed
    since the timer fired, the answer is [period <= elapsed], whether or not
    the counter wrapped past its maximum in between. *)
Theorem check_interval_wraparound_safe (millis previousMillis period : Z) :
  0 <= period <= LONG_MAX ->
  (period <= (millis - previousMillis) mod 2 ^ 32 ->
     check_interval millis previousMillis period = (true, millis))
  /\ ((millis - previousMillis) mod 2 ^ 32 < period ->
     check_interval millis previousMillis period = (false, previousMillis))
  /\ (forall elapsed, 0 <= elapsed < 2 ^ 32 ->
       millis = (previousMillis + elapsed) mod 2 ^ 32 ->
       check_interval millis previousMillis period
       = if period <=? elapsed then (true, millis) else (false, previousMillis)).
Proof.
  intros Hp. pose proof (to_ulong_long_nonneg period Hp) as Hconv.
  split; [| split].
  - intros Hge. apply check_interval_fires. rewrite Hconv. exact Hge.
  - intros Hlt. apply check_interval_holds. rewrite Hconv. exact Hlt.
  - intros elapsed He Hnow.
    pose proof (elapsed_recovered previousMillis elapsed He) as Hrec.
    change (millis = to_ulong (previousMillis + elapsed)) in Hnow.
    rewrite <- Hnow in Hrec.
    destruct (Z.leb_spec period elapsed).
    + apply check_interval_fires. rewrite Hconv, Hrec. assumption.
    + apply check_interval_holds. rewrite Hconv, Hrec. assumption.
Qed.

(** The gate across a wrap: last fired 5000 ms before the counter's maximum,
    read 6000 ms after it restarted from 0, with a 10 s period. *)
Lemma check_interval_wraparound_safe_witness :
  check_interval 5999 (2 ^ 32 - 5000) 10000 = (true, 5999)
  /\ check_interval 4999 (2 ^ 32 - 5000) 10000 = (false, 2 ^ 32 - 5000).
Proof.
  split.
  - apply (check_interval_wraparound_safe 5999 (2 ^ 32 - 5000) 10000);
      [unfold LONG_MAX; lia | vm_compute; discriminate].
  - apply (check_interval_wraparound_safe 4999 (2 ^ 32 - 5000) 10000);
      [unfold LONG_MAX; lia | vm_compute; reflexivity].
Defined.

(** ** SensorSampler: [handleTemperaturesensor] *)

(** Runs the plumbing of a body, and nothing of its arithmetic. *)
Ltac run_body :=
  cbv beta iota zeta delta
    [run enter call bind read write emit pure return_ app
     result_of final_state trace_of fst snd
     globalToggleStates deviceIsOn temperature humidity lastTemperature
     lastHumidity lastEvent LM393_previous_millis
     set_globalToggleStates set_temperature set_humidity set_lastTemperature
     set_lastHumidity set_lastEvent set_LM393_previous_millis].

(** Every path through the handler, one line each. *)
Lemma handleTemperaturesensor_paths millis t h send (s : State) :
  run (handleTemperaturesensor millis t h send) s =
  if negb (gate_open millis s) then (tt, s, [])
  else if F32.isnan t || F32.isnan h
       then (tt, sampled t h s, [SerialDHTFailed])
  else if send t h
       then (tt, promoted millis t h s,
             [SendTemperatureEvent t h; SerialReading t h])
  else (tt, sampled t h s, [SendTemperatureEvent t h; SerialSendFailed]).
Proof.
  destruct s as [tg on t0 h0 lt lh le pm].
  unfold gate_open, promoted, sampled, handleTemperaturesensor.
  change (to_ulong EVENT_WAIT_TIME) with EVENT_WAIT_TIME.
  destruct on; [| reflexivity].
  run_body. cbv beta iota delta [Bool.eqb andb negb].
  destruct (to_ulong (millis - le) <? EVENT_WAIT_TIME); [reflexivity |].
  run_body.
  destruct (F32.isnan t || F32.isnan h); [reflexivity |].
  destruct (F32.eqb t lt), (F32.eqb h lh), (send t h); reflexivity.
Qed.

(** C3. On a call of [handleTemperaturesensor] whose sample is not accepted
    (the driver returned a NaN temperature or humidity, or
    [sendTemperatureEvent] reported failure), [lastTemperature],
    [lastHumidity] and [lastEvent] keep the values they had before the call,
    so the gate of the next call is decided against the prior baseline. *)
Theorem rejected_sample_keeps_baseline millis t h send (s : State) :
  F32.isnan t = true \/ F32.isnan h = true \/ send t h = false ->
  let s' := final_state (run (handleTemperaturesensor millis t h send) s) in
  lastTemperature s' = lastTemperature s
  /\ lastHumidity s' = lastHumidity s
  /\ lastEvent s' = lastEvent s
  /\ (forall millis', gate_open millis' s' = gate_open millis' s).
Proof.
  intros Hrej. rewrite handleTemperaturesensor_paths.
  assert (Hkeep : forall s0 : State,
             s0 = s \/ s0 = sampled t h s ->
             lastTemperature s0 = lastTemperature s
             /\ lastHumidity s0 = lastHumidity s
             /\ lastEvent s0 = lastEvent s
             /\ (forall millis', gate_open millis' s0 = gate_open millis' s)).
  { intros s0 [-> | ->]; repeat split. }
  destruct (negb (gate_open millis s)); [apply Hkeep; now left |].
  destruct (F32.isnan t || F32.isnan h) eqn:Hnan; [apply Hkeep; now right |].
  destruct (send t h) eqn:Hsend; [| apply Hkeep; now right].
  apply orb_false_elim in Hnan as [Ht Hh].
  destruct Hrej as [Hrej | [Hrej | Hrej]]; congruence.
Qed.

(** A NaN temperature, and a refused event, 70 s after the last accepted
    sample: the baseline of [running_state] stays. *)
Lemma rejected_sample_keeps_baseline_witness :
  (let s' := final_state (run (handleTemperaturesensor 71000 F32.nan
                                 (F32.of_Z 50) send_succeeds) running_state) in
   lastTemperature s' = F32.of_Z 22 /\ lastHumidity s' = F32.of_Z 50
   /\ lastEvent s' = 1000)
  /\ (let s' := final_state (run (handleTemperaturesensor 71000 (F32.of_Z 30)
                                    (F32.of_Z 50) send_fails) running_state) in
      lastTemperature s' = F32.of_Z 22 /\ lastHumidity s' = F32.of_Z 50
      /\ lastEvent s' = 1000).
Proof.
  split.
  - destruct (rejected_sample_keeps_baseline 71000 F32.nan (F32.of_Z 50)
                send_succeeds running_state) as (H1 & H2 & H3 & _);
      [left; reflexivity | repeat split; assumption].
  - destruct (rejected_sample_keeps_baseline 71000 (F32.of_Z 30) (F32.of_Z 50)
                send_fails running_state) as (H1 & H2 & H3 & _);
      [right; right; reflexivity | repeat split; assumption].
Defined.

(** An accepted sample is promoted: the converse path. *)
Lemma accepted_sample_promoted millis t h send (s : State) :
  gate_open millis s = true ->
  F32.isnan t = false -> F32.isnan h = false -> send t h = true ->
  final_state (run (handleTemperaturesensor millis t h send) s)
  = promoted millis t h s.
Proof.
  intros Hg Ht Hh Hs. rewrite handleTemperaturesensor_paths.
  now rewrite Hg, Ht, Hh, Hs.
Qed.

(** C4. A sample that passes the gate and is not NaN is handed to
    [sendTemperatureEvent], once, whatever the last accepted reading is, and
    so also when it equals it: the comparison with the baseline has no
    effect on the call. *)
Theorem valid_sample_always_forwarded millis t h send (s : State) :
  gate_open millis s = true ->
  F32.isnan t = false -> F32.isnan h = false ->
  let tr := trace_of (run (handleTemperaturesensor millis t h send) s) in
  List.filter is_send tr = [SendTemperatureEvent t h]
  /\ forall s2 : State,
       deviceIsOn s2 = deviceIsOn s -> lastEvent s2 = lastEvent s ->
       List.filter is_send
         (trace_of (run (handleTemperaturesensor millis t h send) s2))
       = List.filter is_send tr.
Proof.
  intros Hg Ht Hh.
  assert (Hone : forall s0 : State, gate_open millis s0 = true ->
            List.filter is_send
              (trace_of (run (handleTemperaturesensor millis t h send) s0))
            = [SendTemperatureEvent t h]).
  { intros s0 H0. rewrite handleTemperaturesensor_paths.
    rewrite H0, Ht, Hh. cbn [negb orb].
    destruct (send t h); reflexivity. }
  cbv zeta. split; [now apply Hone |].
  intros s2 Hon Hev. rewrite (Hone s Hg). apply Hone.
  unfold gate_open in *. now rewrite Hon, Hev.
Qed.

(** The same 22 degrees and 50 percent as the baseline, 70 s later: sent. *)
Lemma valid_sample_always_forwarded_witness :
  List.filter is_send
    (trace_of (run (handleTemperaturesensor 71000 (lastTemperature running_state)
                      (lastHumidity running_state) send_succeeds)
                 running_state))
  = [SendTemperatureEvent (F32.of_Z 22) (F32.of_Z 50)].
Proof.
  apply (valid_sample_always_forwarded 71000 (F32.of_Z 22) (F32.of_Z 50)
           send_succeeds running_state); reflexivity.
Defined.

(** ** RainSampler: [handleRainSensor] *)

Lemma handleRainSensor_paths millis analog digital (s : State) :
  run (handleRainSensor millis analog digital) s =
  if rain_gate_open millis s
  then (tt, set_LM393_previous_millis millis s, [SerialRain analog digital])
  else (tt, s, []).
Proof.
  destruct s as [tg on t0 h0 lt lh le pm].
  unfold rain_gate_open, handleRainSensor, check_interval.
  change (to_ulong LM393_sample_interval) with LM393_sample_interval.
  run_body. rewrite Z.geb_leb.
  destruct (LM393_sample_interval <=? to_ulong (millis - pm)); reflexivity.
Qed.

(** The temperature handler never touches the rain timer. *)
Lemma handleTemperaturesensor_keeps_rain_timer millis t h send (s : State) :
  LM393_previous_millis
    (final_state (run (handleTemperaturesensor millis t h send) s))
  = LM393_previous_millis s.
Proof.
  rewrite handleTemperaturesensor_paths.
  destruct (negb (gate_open millis s)); [reflexivity |].
  destruct (F32.isnan t || F32.isnan h); [reflexivity |].
  destruct (send t h); reflexivity.
Qed.

(** C8. [handleRainSensor] samples exactly when its own timer
    [LM393_previous_millis] is at least 10 s behind the clock, a timer and a
    period other than the 60 s gate on [lastEvent] of the temperature
    handler, which in turn leaves the rain timer alone.  Whatever the analog
    and digital reads return is logged as it is, and of the globals only the
    timer changes: [lastTemperature], [lastHumidity], [lastEvent], the toggle
    map and the rest are as before. *)
Theorem handleRainSensor_only_logs millis analog digital (s : State) :
  let r := run (handleRainSensor millis analog digital) s in
  let fired := 10000 <=? (millis - LM393_previous_millis s) mod 2 ^ 32 in
  trace_of r = (if fired then [SerialRain analog digital] else [])
  /\ final_state r
     = set_LM393_previous_millis
         (if fired then millis else LM393_previous_millis s) s
  /\ lastTemperature (final_state r) = lastTemperature s
  /\ lastHumidity (final_state r) = lastHumidity s
  /\ lastEvent (final_state r) = lastEvent s
  /\ globalToggleStates (final_state r) = globalToggleStates s
  /\ deviceIsOn (final_state r) = deviceIsOn s
  /\ temperature (final_state r) = temperature s
  /\ humidity (final_state r) = humidity s
  /\ LM393_sample_interval <> EVENT_WAIT_TIME
  /\ (forall millis' t h send,
       LM393_previous_millis
         (final_state (run (handleTemperaturesensor millis' t h send) s))
       = LM393_previous_millis s).
Proof.
  cbv zeta. rewrite handleRainSensor_paths. unfold rain_gate_open.
  change LM393_sample_interval with 10000.
  change (to_ulong (millis - LM393_previous_millis s))
    with ((millis - LM393_previous_millis s) mod 2 ^ 32).
  destruct (10000 <=? (millis - LM393_previous_millis s) mod 2 ^ 32);
    destruct s as [tg on t0 h0 lt lh le pm];
    (repeat split;
     [ discriminate
     | intros; apply handleTemperaturesensor_keeps_rain_timer ]).
Qed.

(** ** ToggleController: [onToggleState] *)

Lemma onToggleState_run deviceId instance state (s : State) :
  run (onToggleState deviceId instance state) s
  = (true,
     set_globalToggleStates (<[instance := state]> (globalToggleStates s)) s,
     [SerialToggle deviceId instance state]).
Proof. destruct s. reflexivity. Qed.

(** Sequencing after a call: the callee runs to its end or to its [return],
    and the caller's continuation runs from the globals it left. *)
Lemma run_bind_call {R A} (body : M A A) (k : A -> M R R) (s : State) :
  run (bind (call body) k) s =
  let '(a, s1, t1) := run body s in
  let '(r, s2, t2) := run (k a) s1 in
  (r, s2, t1 ++ t2).
Proof.
  unfold run, bind, call.
  destruct (body s) as [[[a | a] s1] t1];
    destruct (k a s1) as [[[r | r] s2] t2]; reflexivity.
Qed.

Lemma run_bind_enter (h : Handler) (body : M unit unit)
    (k : unit -> M unit unit) (s : State) :
  run (bind (enter h body) k) s =
  let '(_, s1, t1) := run body s in
  let '(r, s2, t2) := run (k tt) s1 in
  (r, s2, Enter h :: t1 ++ t2).
Proof.
  unfold enter. unfold run, bind, call, emit.
  destruct (body s) as [[[[] | []] s1] t1];
    destruct (k tt s1) as [[[r | r] s2] t2]; reflexivity.
Qed.

Lemma run_enter (h : Handler) (body : M unit unit) (s : State) :
  run (enter h body) s =
  let '(_, s1, t1) := run body s in (tt, s1, Enter h :: t1).
Proof.
  unfold enter. unfold run, bind, call, emit.
  destruct (body s) as [[[[] | []] s1] t1]; reflexivity.
Qed.

Lemma set_globalToggleStates_twice m1 m2 (s : State) :
  set_globalToggleStates m2 (set_globalToggleStates m1 s)
  = set_globalToggleStates m2 s.
Proof. destruct s; reflexivity. Qed.

Lemma set_globalToggleStates_same (s : State) :
  set_globalToggleStates (globalToggleStates s) s = s.
Proof. destruct s; reflexivity. Qed.

(** A batch of toggle requests: each one is logged and written to the map,
    later requests over earlier ones. *)
Lemma SinricPro_handle_run reqs (s : State) :
  run (SinricPro_handle reqs) s
  = (tt,
     set_globalToggleStates (apply_toggles reqs (globalToggleStates s)) s,
     List.map toggle_line reqs).
Proof.
  revert s. induction reqs as [| [[deviceId instance] state] reqs IH];
    intros s.
  - cbn. now rewrite set_globalToggleStates_same.
  - cbn [SinricPro_handle]. rewrite run_bind_call, onToggleState_run, IH.
    rewrite set_globalToggleStates_twice.
    destruct s; reflexivity.
Qed.

Lemma SinricPro_handle_keeps_deviceIsOn reqs (s : State) :
  deviceIsOn (final_state (run (SinricPro_handle reqs) s)) = deviceIsOn s.
Proof. rewrite SinricPro_handle_run. destruct s; reflexivity. Qed.

(** C10. [onToggleState] stores [state] under [instance] in
    [globalToggleStates], leaves every other key as it was, and returns
    true.  [deviceIsOn] is not written, neither by one callback nor by any
    batch of toggle requests, so the gate of [handleTemperaturesensor] is the
    same before and after. *)
Theorem onToggleState_last_writer_wins deviceId instance state (s : State) :
  let r := run (onToggleState deviceId instance state) s in
  result_of r = true
  /\ globalToggleStates (final_state r) !! instance = Some state
  /\ (forall other, other <> instance ->
       globalToggleStates (final_state r) !! other
       = globalToggleStates s !! other)
  /\ deviceIsOn (final_state r) = deviceIsOn s
  /\ (forall millis, gate_open millis (final_state r) = gate_open millis s)
  /\ (forall reqs,
       deviceIsOn (final_state (run (SinricPro_handle reqs) s))
       = deviceIsOn s).
Proof.
  cbv zeta. rewrite onToggleState_run.
  unfold result_of, final_state; cbn [fst snd].
  destruct s as [tg on t0 h0 lt lh le pm].
  cbn [set_globalToggleStates globalToggleStates deviceIsOn].
  repeat split.
  - apply lookup_insert_eq.
  - intros other Hne. apply lookup_insert_ne. congruence.
  - intros reqs. apply SinricPro_handle_keeps_deviceIsOn.
Qed.

(** ** ControlLoop: [loop] *)

Lemma entered_app (a b : list Event) :
  entered (a ++ b) = entered a ++ entered b.
Proof.
  induction a as [| e a IH]; [reflexivity |].
  destruct e; cbn [entered app]; now rewrite ?IH.
Qed.

Lemma displayed_app (a b : list Event) :
  displayed (a ++ b) = displayed a ++ displayed b.
Proof.
  induction a as [| e a IH]; [reflexivity |].
  destruct e; cbn [displayed app]; now rewrite ?IH.
Qed.

Lemma toggle_lines_quiet reqs :
  entered (List.map toggle_line reqs) = []
  /\ displayed (List.map toggle_line reqs) = [].
Proof. induction reqs as [| r reqs [IH1 IH2]]; split; auto. Qed.

(** One iteration, handler by handler: each callee starts from the globals
    its predecessor left, whatever path the predecessor took. *)
Lemma loop_run (w : World) (s : State) :
  let r0 := run (SinricPro_handle (toggle_requests w)) s in
  let r1 := run handleKeypad (final_state r0) in
  let r2 := run (handleRainSensor (rain_millis w) (rain_analog w)
                   (rain_digital w)) (final_state r1) in
  let r3 := run (handleTemperaturesensor (dht_millis w) (dht_temperature w)
                   (dht_humidity w) (send_result w)) (final_state r2) in
  let r4 := run handleDisplay (final_state r3) in
  run (loop w) s
  = (tt, final_state r4,
     Enter HSinricPro :: trace_of r0 ++
     Enter HKeypad :: trace_of r1 ++
     Enter HRainSensor :: trace_of r2 ++
     Enter HTemperaturesensor :: trace_of r3 ++
     Enter HDisplay :: trace_of r4).
Proof.
  cbv zeta. unfold loop, final_state, trace_of.
  rewrite run_bind_enter.
  destruct (run (SinricPro_handle (toggle_requests w)) s) as [[[] s0] t0].
  cbn [fst snd]. rewrite run_bind_enter.
  destruct (run handleKeypad s0) as [[[] s1] t1].
  cbn [fst snd]. rewrite run_bind_enter.
  destruct (run (handleRainSensor _ _ _) s1) as [[[] s2] t2].
  cbn [fst snd]. rewrite run_bind_enter.
  destruct (run (handleTemperaturesensor _ _ _ _) s2) as [[[] s3] t3].
  cbn [fst snd]. rewrite run_enter.
  destruct (run handleDisplay s3) as [[[] s4] t4]; reflexivity.
Qed.

Lemma handleDisplay_run (s : State) :
  run handleDisplay s = (tt, s, [SerialDisplay (temperature s) (humidity s)]).
Proof. reflexivity. Qed.

Lemma handleKeypad_run (s : State) : run handleKeypad s = (tt, s, []).
Proof. reflexivity. Qed.

(** No iteration of [loop] dispatches a push notification: the only caller
    of [sendPushNotification] is [setup]. *)
Lemma loop_dispatches_no_push (w : World) (s : State) :
  List.filter is_push (trace_of (run (loop w) s)) = [].
Proof.
  rewrite loop_run. cbv zeta.
  rewrite handleDisplay_run, handleTemperaturesensor_paths,
    handleRainSensor_paths, handleKeypad_run, SinricPro_handle_run.
  assert (Hq : List.filter is_push (List.map toggle_line (toggle_requests w))
               = []).
  { induction (toggle_requests w) as [| r reqs IH]; [reflexivity | exact IH]. }
  unfold final_state, trace_of; cbn [fst snd].
  destruct (rain_gate_open _ _); cbn [fst snd];
    (destruct (negb (gate_open _ _));
     [| destruct (F32.isnan _ || F32.isnan _); [| destruct (send_result _ _ _)]]);
    cbn [fst snd app List.filter is_push];
    rewrite ?List.filter_app; cbn [List.filter is_push];
    rewrite ?List.filter_app; cbn [List.filter is_push];
    rewrite Hq; reflexivity.
Qed.

(** Nothing in the sketch writes [deviceIsOn]: it is false at start-up and
    stays false, so the temperature handler of the sketch as it stands never
    gets past its first line. *)
Lemma handleTemperaturesensor_keeps_deviceIsOn millis t h send (s : State) :
  deviceIsOn (final_state (run (handleTemperaturesensor millis t h send) s))
  = deviceIsOn s.
Proof.
  rewrite handleTemperaturesensor_paths.
  destruct (negb (gate_open millis s)); [reflexivity |].
  destruct (F32.isnan t || F32.isnan h); [destruct s; reflexivity |].
  destruct (send t h); destruct s; reflexivity.
Qed.

Lemma handleRainSensor_keeps_deviceIsOn millis analog digital (s : State) :
  deviceIsOn (final_state (run (handleRainSensor millis analog digital) s))
  = deviceIsOn s.
Proof.
  rewrite handleRainSensor_paths.
  destruct (rain_gate_open millis s); destruct s; reflexivity.
Qed.

Lemma loop_keeps_deviceIsOn (w : World) (s : State) :
  deviceIsOn (final_state (run (loop w) s)) = deviceIsOn s.
Proof.
  rewrite loop_run. cbv zeta. unfold final_state at 1. cbn [fst snd].
  rewrite handleDisplay_run. unfold final_state at 1. cbn [fst snd].
  rewrite handleTemperaturesensor_keeps_deviceIsOn,
    handleRainSensor_keeps_deviceIsOn, handleKeypad_run.
  unfold final_state at 1. cbn [fst snd].
  apply SinricPro_handle_keeps_deviceIsOn.
Qed.

Lemma setup_keeps_deviceIsOn (w : World) (s : State) :
  deviceIsOn (final_state (run (setup w) s)) = deviceIsOn s.
Proof.
  unfold setup. rewrite run_bind_call.
  change (run (sendPushNotification "ESP Device is online") s)
    with (tt, s, [SendPushNotification "ESP Device is online"]).
  cbv beta iota. rewrite run_bind_call.
  pose proof (handleRainSensor_keeps_deviceIsOn (rain_millis w)
                (rain_analog w) (rain_digital w) s) as Hrain.
  destruct (run (handleRainSensor _ _ _) s) as [[[] s1] t1].
  pose proof (handleTemperaturesensor_keeps_deviceIsOn (dht_millis w)
                (dht_temperature w) (dht_humidity w) (send_result w) s1)
    as Htemp.
  unfold final_state in *; cbn [fst snd] in *.
  destruct (run (call _) s1) as [[[] s2] t2] eqn:Hcall.
  unfold run, call in Hcall.
  destruct (handleTemperaturesensor _ _ _ _ s1) as [[[[] | []] s3] t3] eqn:Hb;
    unfold run in Htemp; rewrite Hb in Htemp; cbn [fst snd] in *;
    injection Hcall as <- _; congruence.
Qed.

Lemma iterations_keep_deviceIsOn (ws : list World) :
  forall s : State,
    deviceIsOn (final_state (run (iterations ws) s)) = deviceIsOn s.
Proof.
  induction ws as [| w ws IH]; intros s; [reflexivity |].
  cbn [iterations]. rewrite run_bind_call.
  pose proof (loop_keeps_deviceIsOn w s) as Hloop.
  destruct (run (loop w) s) as [[[] s1] t1].
  specialize (IH s1).
  destruct (run (iterations ws) s1) as [[[] s2] t2].
  unfold final_state in *; cbn [fst snd] in *. congruence.
Qed.

Lemma sketch_device_stays_off (w0 : World) (ws : list World) :
  deviceIsOn (final_state (run (sketch w0 ws) initial_state)) = false.
Proof.
  unfold sketch. rewrite run_bind_call.
  pose proof (setup_keeps_deviceIsOn w0 initial_state) as Hsetup.
  destruct (run (setup w0) initial_state) as [[[] s1] t1].
  pose proof (iterations_keep_deviceIsOn ws s1) as Hiter.
  destruct (run (iterations ws) s1) as [[[] s2] t2].
  unfold final_state in *; cbn [fst snd] in *.
  rewrite Hiter, Hsetup. reflexivity.
Qed.

(** One iteration of [loop] from any globals, reachable or not: whatever the
    globals and whatever the world returns, the Sinric Pro pump and then the
    keypad, rain, temperature and display handlers are each entered once, in
    that order, each starting from the globals its predecessor left: a
    [return] inside one handler ends that handler only.  The display handler
    always runs and is given the actual reading, the globals [temperature]
    and [humidity]: the sample of this iteration whenever the temperature
    gate was open, also one that was then rejected as NaN or refused by the
    server, and otherwise what they held before.  The last known reading
    changes only on an accepted sample. *)
Theorem loop_runs_every_handler (w : World) (s : State) :
  let r0 := run (SinricPro_handle (toggle_requests w)) s in
  let r1 := run handleKeypad (final_state r0) in
  let r2 := run (handleRainSensor (rain_millis w) (rain_analog w)
                   (rain_digital w)) (final_state r1) in
  let r3 := run (handleTemperaturesensor (dht_millis w) (dht_temperature w)
                   (dht_humidity w) (send_result w)) (final_state r2) in
  let r4 := run handleDisplay (final_state r3) in
  let r := run (loop w) s in
  trace_of r
  = Enter HSinricPro :: trace_of r0 ++
    Enter HKeypad :: trace_of r1 ++
    Enter HRainSensor :: trace_of r2 ++
    Enter HTemperaturesensor :: trace_of r3 ++
    Enter HDisplay :: trace_of r4
  /\ entered (trace_of r)
     = [HSinricPro; HKeypad; HRainSensor; HTemperaturesensor; HDisplay]
  /\ displayed (trace_of r) = [actual (final_state r)]
  /\ actual (final_state r)
     = (if gate_open (dht_millis w) s
        then (dht_temperature w, dht_humidity w)
        else actual s)
  /\ last_known (final_state r)
     = (if accepted (dht_millis w) (dht_temperature w) (dht_humidity w)
             (send_result w) s
        then (dht_temperature w, dht_humidity w)
        else last_known s).
Proof.
  cbv zeta. rewrite loop_run. cbv zeta.
  split; [reflexivity |].
  rewrite handleDisplay_run, handleTemperaturesensor_paths,
    handleRainSensor_paths, handleKeypad_run, SinricPro_handle_run.
  destruct (toggle_lines_quiet (toggle_requests w)) as [Hq1 Hq2].
  unfold accepted, final_state, trace_of; cbn [fst snd].
  destruct s as [tg on t0 h0 lt lh le pm].
  destruct (rain_gate_open _ _); cbn [fst snd];
    unfold gate_open, set_globalToggleStates, set_LM393_previous_millis;
    cbn [deviceIsOn lastEvent];
    (destruct on; cbn [andb negb];
     [ destruct (to_ulong (dht_millis w - le) <? EVENT_WAIT_TIME);
       cbn [negb];
       [| destruct (F32.isnan (dht_temperature w)
                    || F32.isnan (dht_humidity w)); cbn [negb andb];
          [| destruct (send_result w (dht_temperature w) (dht_humidity w)) ] ]
     | ]);
    cbn [fst snd app];
    rewrite ?entered_app, ?displayed_app; cbn [entered displayed];
    rewrite ?entered_app, ?displayed_app; cbn [entered displayed];
    rewrite Hq1, Hq2; repeat split.
Qed.

(** Globals no run of the sketch reaches, with the device switched on: 70 s
    after an accepted sample of 22 degrees the driver returns NaN; the sample
    is rejected and the last known reading stays at 22 degrees and 50
    percent, but the display is given the NaN. *)
Lemma display_gets_rejected_sample :
  ~ display_gets_last_known glitch_world running_state.
Proof.
  unfold display_gets_last_known. vm_compute. intros H. discriminate H.
Qed.

(** ** KeyDecoder: [get_key] *)

Lemma land_127 (k : Z) : 0 <= k -> Z.land k 127 = k mod 128.
Proof. intros _. change 127 with (Z.ones 7). now rewrite Z.land_ones. Qed.

(** A property of bytes holds when it holds of each of the 256. *)
Lemma byte_cases (P : Z -> bool) :
  List.forallb P (List.map Z.of_nat (List.seq 0 256)) = true ->
  forall k, 0 <= k < 256 -> P k = true.
Proof.
  intros Hall k Hk. rewrite List.forallb_forall in Hall. apply Hall.
  rewrite <- (Z2Nat.id k) by lia. apply List.in_map, List.in_seq. lia.
Qed.

(** Bit 7 of a byte is set exactly from 128 on. *)
Lemma land_128 (k : Z) :
  0 <= k < 256 -> negb (Z.land k 128 =? 0) = (128 <=? k).
Proof.
  intros Hk. apply Bool.eqb_prop.
  apply (byte_cases
           (fun k => Bool.eqb (negb (Z.land k 128 =? 0)) (128 <=? k)));
    [vm_compute; reflexivity | exact Hk].
Qed.

Lemma uint8_small (z : Z) : 0 <= z < 256 -> to_uint8 z = z.
Proof. intros Hz. now apply Z.mod_small. Qed.

(** Every byte goes through the same decoding, and the table is read at
    [col], [row] whatever they are. *)
Lemma get_key_run (k : Z) :
  0 <= k < 256 ->
  let index := k mod 128 - 1 in
  let row := to_uint8 (Z.quot index 10) in
  let col := to_uint8 (Z.rem index 10) in
  get_key (Some k)
  = (Some (mkKeyLine (128 <=? k) row col (keymap_at col row)),
     keymap_at col row).
Proof.
  intros Hk. cbv zeta. unfold get_key.
  rewrite land_128 by exact Hk. rewrite land_127 by lia. reflexivity.
Qed.

(** From index 1 on, C's truncating division and the casts to [uint8_t]
    are plain quotient and remainder. *)
Lemma decode_index (index : Z) :
  0 <= index < 127 ->
  to_uint8 (Z.quot index 10) = index / 10
  /\ to_uint8 (Z.rem index 10) = index mod 10.
Proof.
  intros Hi.
  rewrite Z.quot_div_nonneg, Z.rem_mod_nonneg by lia.
  pose proof (Z.mod_pos_bound index 10 ltac:(lia)).
  assert (0 <= index / 10 < 256).
  { split; [apply Z.div_pos; lia | apply Z.div_lt_upper_bound; lia]. }
  split; apply uint8_small; lia.
Qed.

(** C6. For every pending raw event [k], a byte, [get_key] takes bit 7 as
    the edge, clears it, decrements the index, computes [row] and [col] as
    the quotient and remainder by 10 (C's division, cast to [uint8_t]) and
    reads [keymap[col][row]], which it prints and returns; for a byte that
    carries a 1-based index these are [row = index / 10] and
    [col = index mod 10].  For the key at row [r],
    column [c] of the 4x4 matrix this is the entry at line [c], position [r]
    of the layout table, the transpose of the physical position.  The press
    of row 2, column 1 (index 22, byte 150) gives the symbol 6, the entry
    [keymap[1][2]], with the press edge. *)
Theorem get_key_decodes :
  (forall k, 0 <= k < 256 ->
     let index := k mod 128 - 1 in
     let row := to_uint8 (Z.quot index 10) in
     let col := to_uint8 (Z.rem index 10) in
     get_key (Some k)
     = (Some (mkKeyLine (128 <=? k) row col (keymap_at col row)),
        keymap_at col row))
  /\ (forall k, 0 <= k < 256 -> 1 <= k mod 128 ->
     let index := k mod 128 - 1 in
     let row := index / 10 in
     let col := index mod 10 in
     get_key (Some k)
     = (Some (mkKeyLine (128 <=? k) row col (keymap_at col row)),
        keymap_at col row))
  /\ (forall (press : bool) (r c : Z),
       0 <= r < ROWS -> 0 <= c < COLS ->
       let sym := nth (Z.to_nat r) (nth (Z.to_nat c) keymap []) Ascii.zero in
       get_key (Some (raw_event press r c))
       = (Some (mkKeyLine press r c (Sym sym)), Sym sym))
  /\ raw_event true 2 1 = 150
  /\ get_key (Some 150)
     = (Some (mkKeyLine true 2 1 (Sym "6"%char)), Sym "6"%char).
Proof.
  split; [exact get_key_run | split; [| split; [| split; reflexivity]]].
  - intros k Hk Hidx. cbv zeta. rewrite get_key_run by exact Hk. cbv zeta.
    pose proof (Z.mod_pos_bound k 128 ltac:(lia)).
    destruct (decode_index (k mod 128 - 1) ltac:(lia)) as [-> ->].
    reflexivity.
  - intros press r c Hr Hc. unfold ROWS in Hr. unfold COLS in Hc.
    assert (Hrs : r = 0 \/ r = 1 \/ r = 2 \/ r = 3) by lia.
    assert (Hcs : c = 0 \/ c = 1 \/ c = 2 \/ c = 3) by lia.
    destruct press;
      destruct Hrs as [-> | [-> | [-> | ->]]];
      destruct Hcs as [-> | [-> | [-> | ->]]]; reflexivity.
Qed.

(** The press of row 2, column 1, and the release of row 3, column 0. *)
Lemma get_key_decodes_witness :
  get_key (Some 150)
  = (Some (mkKeyLine true 2 1 (keymap_at 1 2)), keymap_at 1 2)
  /\ get_key (Some (raw_event false 3 0))
     = (Some (mkKeyLine false 3 0 (Sym "A"%char)), Sym "A"%char).
Proof.
  destruct get_key_decodes as (_ & Hbyte & Hkey & _).
  split.
  - apply (Hbyte 150); [lia | vm_compute; discriminate].
  - apply (Hkey false 3 0); unfold ROWS, COLS; lia.
Defined.

(** C7. There is a raw event, the byte 5 (index 5: row 0, column 4), whose
    decoded column lies outside the 4x4 table and for which [get_key] reads
    [keymap[col][row]] all the same.  No decoded index is clamped or
    rejected: whenever the row or the column is 4 or more, the read past the
    table is what [get_key] prints and returns. *)
Theorem get_key_reads_out_of_bounds :
  (exists k line,
     0 <= k < 256
     /\ get_key (Some k) = (Some line, OutOfBounds (col line) (row line))
     /\ printed line = OutOfBounds (col line) (row line)
     /\ (ROWS <= col line \/ COLS <= row line))
  /\ (forall k line out,
       0 <= k < 256 ->
       get_key (Some k) = (Some line, out) ->
       ROWS <= col line \/ COLS <= row line ->
       out = OutOfBounds (col line) (row line)
       /\ printed line = OutOfBounds (col line) (row line)).
Proof.
  split.
  - exists 5, (mkKeyLine false 0 4 (OutOfBounds 4 0)).
    repeat split; try reflexivity; try lia. left. unfold ROWS. cbn. lia.
  - intros k line out Hk Hrun Hout.
    rewrite get_key_run in Hrun by exact Hk. cbv zeta in Hrun.
    injection Hrun as Hline Hres. subst line out. cbn [col row printed] in *.
    assert (Hoob : forall i j, ROWS <= i \/ COLS <= j ->
                     keymap_at i j = OutOfBounds i j).
    { intros i j Hij. unfold keymap_at.
      destruct (0 <=? i); cbn [andb]; [| reflexivity].
      destruct (Z.ltb_spec i ROWS); cbn [andb]; [| reflexivity].
      destruct (0 <=? j); cbn [andb]; [| reflexivity].
      destruct (Z.ltb_spec j COLS); [lia | reflexivity]. }
    rewrite Hoob by exact Hout. split; reflexivity.
Qed.

(** ** Comparisons of binary32 values *)

Lemma SFcompare_antisym (a b : float) :
  SFcompare b a = option_map CompOpp (SFcompare a b).
Proof.
  destruct a as [sa | sa | | sa ma ea], b as [sb | sb | | sb mb eb];
    cbn [SFcompare option_map]; try reflexivity;
    try (destruct sa; reflexivity); try (destruct sb; reflexivity);
    try (destruct sa, sb; reflexivity).
  pose proof (Pos.compare_cont_antisym ma mb Eq) as Hm.
  cbn [CompOpp] in Hm.
  destruct sa, sb; cbn [CompOpp]; try reflexivity;
    rewrite (Z.compare_antisym ea eb);
    destruct (ea ?= eb); cbn [CompOpp]; try reflexivity;
    rewrite <- Hm; try reflexivity.
Qed.

Lemma SFcompare_defined (a b : float) :
  F32.isnan a = false -> F32.isnan b = false ->
  exists c, SFcompare a b = Some c.
Proof.
  destruct a as [sa | sa | | sa ma ea], b as [sb | sb | | sb mb eb];
    cbn [F32.isnan SFcompare]; intros Ha Hb; try discriminate; eauto.
Qed.

(** Off the NaNs the order is total: [a < b] fails exactly when [b <= a]. *)
Lemma ltb_negb_leb (a b : float) :
  F32.isnan a = false -> F32.isnan b = false ->
  F32.ltb a b = negb (F32.leb b a).
Proof.
  intros Ha Hb. unfold F32.ltb, F32.leb, SFltb, SFleb.
  rewrite (SFcompare_antisym a b).
  destruct (SFcompare_defined a b Ha Hb) as [c ->].
  destruct c; reflexivity.
Qed.

(** [b <= a] always excludes [a < b], NaN or not. *)
Lemma leb_excludes_ltb (a b : float) :
  F32.leb b a = true -> F32.ltb a b = false.
Proof.
  unfold F32.ltb, F32.leb, SFltb, SFleb.
  rewrite (SFcompare_antisym a b).
  destruct (SFcompare a b) as [[] |]; cbn; congruence.
Qed.

(** ** ActuationPolicy: [evaluate] *)

Module PolicyFacts.
Import ActuationPolicy.

Example mild_day_opens :
  evaluate mild_reading dry scenario_thresholds = mkVerdict Open NoReason.
Proof. reflexivity. Qed.

Example hot_day_closes :
  evaluate hot_reading dry scenario_thresholds = mkVerdict Closed TempHigh.
Proof. reflexivity. Qed.

Example rain_dominates :
  evaluate mild_reading wet scenario_thresholds = mkVerdict Closed Rain.
Proof. reflexivity. Qed.

Example cold_before_damp :
  evaluate cold_damp_reading dry scenario_thresholds
  = mkVerdict Closed TempLow.
Proof. reflexivity. Qed.

(** A NaN would pass every test of the list, were one ever evaluated. *)
Example glitch_opens :
  evaluate glitch_reading dry scenario_thresholds = mkVerdict Open NoReason
  /\ within_limits glitch_reading scenario_thresholds = false.
Proof. split; reflexivity. Qed.

(** When nothing compared is a NaN, the three tests fail exactly within
    the limits. *)
Lemma tests_fail_iff_within_limits (r : Reading) (t : Thresholds) :
  comparable r t = true ->
  negb (temp_low_test r t) && negb (temp_high_test r t)
  && negb (humidity_test r t)
  = within_limits r t.
Proof.
  unfold comparable, within_limits, temp_low_test, temp_high_test,
    humidity_test, F32.gtb.
  intros Hc.
  repeat (apply andb_prop in Hc as [Hc ?]).
  repeat match goal with
         | H : negb _ = true |- _ => apply negb_true_iff in H
         end.
  rewrite !ltb_negb_leb, !negb_involutive by assumption.
  reflexivity.
Qed.

End PolicyFacts.

(** ** Rounding never makes a NaN *)

Lemma shr_1_nonneg (mrs : shr_record) : 0 <= shr_m mrs -> 0 <= shr_m (shr_1 mrs).
Proof.
  destruct mrs as [m r b]. cbn [shr_m]. intros Hm.
  destruct m as [| [p | p |] | p]; cbn; lia.
Qed.

Lemma iter_shr_1_nonneg (p : positive) :
  forall mrs : shr_record,
    0 <= shr_m mrs -> 0 <= shr_m (SpecFloat.iter_pos shr_1 p mrs).
Proof.
  induction p as [p IH | p IH |]; intros mrs Hm; cbn [SpecFloat.iter_pos].
  - apply IH, IH, shr_1_nonneg, Hm.
  - apply IH, IH, Hm.
  - apply shr_1_nonneg, Hm.
Qed.

Lemma shr_fexp_nonneg (m e : Z) (l : location) :
  0 <= m -> 0 <= shr_m (fst (shr_fexp F32.prec F32.emax m e l)).
Proof.
  intros Hm. unfold shr_fexp, shr.
  assert (H0 : 0 <= shr_m (shr_record_of_loc m l))
    by (destruct l as [| []]; exact Hm).
  destruct (fexp F32.prec F32.emax (Zdigits2 m + e) - e) as [| p | p];
    cbn [fst]; [exact H0 | | exact H0].
  now apply iter_shr_1_nonneg.
Qed.

Lemma binary_round_aux_not_nan (sx : bool) (mx ex : Z) (lx : location) :
  0 <= mx ->
  F32.isnan (binary_round_aux F32.prec F32.emax sx mx ex lx) = false.
Proof.
  intros Hm. unfold binary_round_aux.
  pose proof (shr_fexp_nonneg mx ex lx Hm) as H1.
  destruct (shr_fexp F32.prec F32.emax mx ex lx) as [mrs1 e1].
  cbn [fst] in H1.
  assert (H2 : 0 <= round_nearest_even (shr_m mrs1) (loc_of_shr_record mrs1)).
  { unfold round_nearest_even.
    destruct (loc_of_shr_record mrs1) as [| []]; try lia.
    destruct (Z.even (shr_m mrs1)); lia. }
  pose proof (shr_fexp_nonneg _ e1 loc_Exact H2) as H3.
  destruct (shr_fexp F32.prec F32.emax
              (round_nearest_even (shr_m mrs1) (loc_of_shr_record mrs1))
              e1 loc_Exact) as [mrs2 e2].
  cbn [fst] in H3.
  destruct (shr_m mrs2) as [| p | p]; [reflexivity | | lia].
  destruct (e2 <=? F32.emax - F32.prec); reflexivity.
Qed.

Lemma binary_normalize_not_nan (m e : Z) :
  F32.isnan (binary_normalize F32.prec F32.emax m e false) = false.
Proof.
  unfold binary_normalize, binary_round.
  destruct m as [| p | p]; [reflexivity | |];
    destruct (shl_align p e _) as [mz ez];
    apply binary_round_aux_not_nan; lia.
Qed.

(** The difference of two numbers is never a NaN. *)
Lemma sub_numbers_not_nan (a b : float) :
  is_number a = true -> is_number b = true ->
  F32.isnan (F32.sub a b) = false.
Proof.
  unfold F32.sub.
  destruct a as [sa | sa | | sa ma ea], b as [sb | sb | | sb mb eb];
    cbn [is_number]; intros Ha Hb; try discriminate;
    cbn [SFsub].
  - destruct sa, sb; reflexivity.
  - reflexivity.
  - reflexivity.
  - apply binary_normalize_not_nan.
Qed.

(** Numbers throughout leave nothing incomparable: the hypothesis of the
    theorem below holds of every reading and thresholds made of numbers. *)
Lemma all_numbers_comparable
    (r : ActuationPolicy.Reading) (t : ActuationPolicy.Thresholds) :
  all_numbers r t = true -> ActuationPolicy.comparable r t = true.
Proof.
  unfold all_numbers, ActuationPolicy.comparable,
    ActuationPolicy.humidity_deviation.
  intros H.
  repeat (apply andb_prop in H as [H ?]).
  assert (Hnum : forall x, is_number x = true -> F32.isnan x = false)
    by (intros [| | |]; cbn; congruence).
  assert (Hdev : F32.isnan
                   (F32.abs (F32.sub (ActuationPolicy.reading_humidity r)
                               (ActuationPolicy.humidityTarget t))) = false).
  { pose proof (sub_numbers_not_nan (ActuationPolicy.reading_humidity r)
                  (ActuationPolicy.humidityTarget t)) as Hs.
    destruct (F32.sub _ _); cbn in *; auto. }
  rewrite Hdev, (Hnum _ H), (Hnum _ H3), (Hnum _ H2), (Hnum _ H0).
  reflexivity.
Qed.

(** The verdict is [Closed] with the first rule that matches in the order
    Rain, TempLow, TempHigh, HumidityOut, and [Open] when none does. *)
Lemma evaluate_first_match
    (r : ActuationPolicy.Reading) (rain : ActuationPolicy.RainState)
    (t : ActuationPolicy.Thresholds) :
  let v := ActuationPolicy.evaluate r rain t in
  let rainy := ActuationPolicy.rain_test rain in
  let low := ActuationPolicy.temp_low_test r t in
  let high := ActuationPolicy.temp_high_test r t in
  let damp := ActuationPolicy.humidity_test r t in
  (v = ActuationPolicy.mkVerdict ActuationPolicy.Closed ActuationPolicy.Rain
   <-> rainy = true)
  /\ (v = ActuationPolicy.mkVerdict ActuationPolicy.Closed
            ActuationPolicy.TempLow
      <-> rainy = false /\ low = true)
  /\ (v = ActuationPolicy.mkVerdict ActuationPolicy.Closed
            ActuationPolicy.TempHigh
      <-> rainy = false /\ low = false /\ high = true)
  /\ (v = ActuationPolicy.mkVerdict ActuationPolicy.Closed
            ActuationPolicy.HumidityOut
      <-> rainy = false /\ low = false /\ high = false /\ damp = true)
  /\ (v = ActuationPolicy.mkVerdict ActuationPolicy.Open
            ActuationPolicy.NoReason
      <-> rainy = false /\ low = false /\ high = false /\ damp = false).
Proof.
  cbv zeta. unfold ActuationPolicy.evaluate.
  destruct (ActuationPolicy.rain_test rain),
    (ActuationPolicy.temp_low_test r t),
    (ActuationPolicy.temp_high_test r t),
    (ActuationPolicy.humidity_test r t);
    repeat split; try (intros (? & ? & ? & ?)); try (intros (? & ? & ?));
    try (intros (? & ?)); intros; congruence.
Qed.

(** C1. The policy is given Valid readings only (a NaN sample is discarded
    before any evaluation) and thresholds that are numbers, so none of the
    values it compares (the reading's temperature, the two temperature
    limits, the humidity deviation [abs (humidity - humidityTarget)] and the
    tolerance) is a NaN; this is so in particular whenever the reading and
    the thresholds are numbers.  For every such reading and thresholds, with a dry
    rain state, [evaluate] returns [Open], with no reason, if and only if
    [tempLow <= temperature <= tempHigh] and the deviation is at most the
    tolerance; in every other case it returns [Closed] with the first rule
    that matches in the order TempLow, TempHigh, HumidityOut.  Rain comes
    before all of them: a wet rain state gives [Closed] with [Rain]. *)
Theorem evaluate_open_iff_within_limits
    (r : ActuationPolicy.Reading) (rain : ActuationPolicy.RainState)
    (t : ActuationPolicy.Thresholds) :
  ActuationPolicy.comparable r t = true ->
  ActuationPolicy.isWet rain = false ->
  let v := ActuationPolicy.evaluate r rain t in
  let low := ActuationPolicy.temp_low_test r t in
  let high := ActuationPolicy.temp_high_test r t in
  let damp := ActuationPolicy.humidity_test r t in
  opens_iff_within_limits r rain t
  /\ (v = ActuationPolicy.mkVerdict ActuationPolicy.Open
            ActuationPolicy.NoReason
      <-> ActuationPolicy.within_limits r t = true)
  /\ (ActuationPolicy.within_limits r t = false ->
      (low = true
       /\ v = ActuationPolicy.mkVerdict ActuationPolicy.Closed
                ActuationPolicy.TempLow)
      \/ (low = false /\ high = true
          /\ v = ActuationPolicy.mkVerdict ActuationPolicy.Closed
                   ActuationPolicy.TempHigh)
      \/ (low = false /\ high = false /\ damp = true
          /\ v = ActuationPolicy.mkVerdict ActuationPolicy.Closed
                   ActuationPolicy.HumidityOut))
  /\ (forall rain' : ActuationPolicy.RainState,
       ActuationPolicy.isWet rain' = true ->
       ActuationPolicy.evaluate r rain' t
       = ActuationPolicy.mkVerdict ActuationPolicy.Closed
           ActuationPolicy.Rain).
Proof.
  intros Hc Hdry. cbv zeta.
  unfold opens_iff_within_limits, ActuationPolicy.evaluate,
    ActuationPolicy.rain_test.
  rewrite <- (PolicyFacts.tests_fail_iff_within_limits r t Hc), Hdry.
  split; [| split; [| split]].
  - destruct (ActuationPolicy.temp_low_test r t),
      (ActuationPolicy.temp_high_test r t),
      (ActuationPolicy.humidity_test r t); cbn; split; congruence.
  - destruct (ActuationPolicy.temp_low_test r t),
      (ActuationPolicy.temp_high_test r t),
      (ActuationPolicy.humidity_test r t); cbn; split; congruence.
  - destruct (ActuationPolicy.temp_low_test r t),
      (ActuationPolicy.temp_high_test r t),
      (ActuationPolicy.humidity_test r t); cbn; intros Hout;
      try discriminate Hout; auto 10.
  - intros rain' Hwet. now rewrite Hwet.
Qed.

(** The scenarios of the specification: 22 degrees opens, 30 degrees closes
    for [TempHigh]. *)
Lemma evaluate_open_iff_within_limits_witness :
  ActuationPolicy.evaluate mild_reading dry scenario_thresholds
  = ActuationPolicy.mkVerdict ActuationPolicy.Open ActuationPolicy.NoReason
  /\ ActuationPolicy.evaluate hot_reading dry scenario_thresholds
     = ActuationPolicy.mkVerdict ActuationPolicy.Closed
         ActuationPolicy.TempHigh.
Proof.
  split.
  - apply (evaluate_open_iff_within_limits mild_reading dry
             scenario_thresholds); reflexivity.
  - destruct (evaluate_open_iff_within_limits hot_reading dry
                scenario_thresholds eq_refl eq_refl) as (_ & _ & Hout & _).
    destruct (Hout eq_refl) as [[Hl _] | [(_ & _ & Hv) | (_ & Hh & _)]];
      [discriminate Hl | exact Hv | discriminate Hh].
Defined.

(** ** ActuationPolicy: notifications *)

Lemma verdict_eqb_eq (a b : ActuationPolicy.WindowVerdict) :
  ActuationPolicy.verdict_eqb a b = true <-> a = b.
Proof.
  destruct a as [wa ra], b as [wb rb].
  unfold ActuationPolicy.verdict_eqb; cbn.
  destruct wa, wb, ra, rb; cbn; split; congruence.
Qed.

(** What evaluation number [i] dispatches is decided by its verdict and the
    one emitted just before it. *)
Lemma evaluations_lookup (xs : list ActuationPolicy.Input) :
  forall previous (i : nat) x,
    xs !! i = Some x ->
    ActuationPolicy.evaluations previous xs !! i
    = Some (snd (ActuationPolicy.notify (verdict_before previous xs i)
                   (ActuationPolicy.evaluate_input x))).
Proof.
  induction xs as [| x0 xs IH]; intros previous i x Hx; [discriminate Hx |].
  destruct i as [| j].
  - injection Hx as ->. reflexivity.
  - cbn [ActuationPolicy.evaluations ActuationPolicy.notify].
    change ((x0 :: xs) !! S j) with (xs !! j) in Hx.
    change ((?o :: ?l) !! S j) with (l !! j).
    rewrite (IH (ActuationPolicy.evaluate_input x0) j x Hx).
    do 3 f_equal. destruct j as [| k]; [reflexivity |].
    cbn [verdict_before]. change ((x0 :: xs) !! S k) with (xs !! k).
    destruct (lookup_lt_is_Some_2 xs k) as [y ->]; [| reflexivity].
    apply lookup_lt_Some in Hx. lia.
Qed.

(** Evaluating the same input again dispatches nothing more. *)
Lemma evaluations_repeat (x : ActuationPolicy.Input) (n : nat) :
  forall previous,
    List.concat (ActuationPolicy.evaluations previous (replicate (S n) x))
    = snd (ActuationPolicy.notify previous (ActuationPolicy.evaluate_input x)).
Proof.
  induction n as [| n IH]; intros previous.
  - cbn. now rewrite app_nil_r.
  - change (replicate (S (S n)) x) with (x :: replicate (S n) x).
    cbn [ActuationPolicy.evaluations ActuationPolicy.notify List.concat].
    rewrite IH. cbn [ActuationPolicy.notify snd].
    rewrite (proj2 (verdict_eqb_eq _ _) eq_refl), andb_false_r.
    now rewrite app_nil_r.
Qed.

(** C5. In any sequence of policy evaluations started from any previously
    emitted verdict, the evaluation number [i] dispatches exactly one push
    notification when its verdict is [Closed] with a reason and differs, in
    window or reason, from the verdict emitted just before it, and dispatches
    nothing otherwise, in particular while the same verdict and reason
    persist: one more or many more evaluations of the same input dispatch
    what the first of them dispatched and nothing further. *)
Theorem notification_edge_triggered
    (previous : ActuationPolicy.WindowVerdict)
    (xs : list ActuationPolicy.Input) (i : nat) (x : ActuationPolicy.Input) :
  xs !! i = Some x ->
  let v := ActuationPolicy.evaluate_input x in
  let before := verdict_before previous xs i in
  let dispatched := ActuationPolicy.evaluations previous xs !! i in
  (ActuationPolicy.is_alert v = true /\ v <> before ->
   dispatched = Some [push_for v])
  /\ (ActuationPolicy.is_alert v = false \/ v = before ->
      dispatched = Some [])
  /\ (forall n : nat,
       List.concat (ActuationPolicy.evaluations before (replicate (S n) x))
       = default [] dispatched).
Proof.
  intros Hx. cbv zeta. rewrite (evaluations_lookup xs previous i x Hx).
  cbn [ActuationPolicy.notify snd default].
  split; [| split].
  - intros [Halert Hne]. rewrite Halert.
    destruct (ActuationPolicy.verdict_eqb _ _) eqn:Heq; [| reflexivity].
    apply verdict_eqb_eq in Heq. contradiction.
  - intros [Hquiet | Hsame].
    + now rewrite Hquiet.
    + rewrite (proj2 (verdict_eqb_eq _ _) Hsame), andb_false_r. reflexivity.
  - intros n. apply evaluations_repeat.
Qed.

(** The heat wave: the second evaluation, the first hot one, notifies once;
    the third, as hot, does not. *)
Lemma notification_edge_triggered_witness :
  ActuationPolicy.evaluations
    (ActuationPolicy.mkVerdict ActuationPolicy.Open ActuationPolicy.NoReason)
    heat_wave !! 1%nat
  = Some [SendPushNotification "temperature above the upper limit"]
  /\ ActuationPolicy.evaluations
       (ActuationPolicy.mkVerdict ActuationPolicy.Open ActuationPolicy.NoReason)
       heat_wave !! 2%nat
     = Some [].
Proof.
  split.
  - apply (notification_edge_triggered
             (ActuationPolicy.mkVerdict ActuationPolicy.Open
                ActuationPolicy.NoReason)
             heat_wave 1 (hot_reading, dry, scenario_thresholds) eq_refl).
    split; [reflexivity | discriminate].
  - apply (notification_edge_triggered
             (ActuationPolicy.mkVerdict ActuationPolicy.Open
                ActuationPolicy.NoReason)
             heat_wave 2 (hot_reading, dry, scenario_thresholds) eq_refl).
    right. reflexivity.
Defined.

(** * Further properties of the sketch *)

(** ** IntervalGate over several calls *)

Lemma ulong_difference (t last : Z) :
  last <= t < last + ULONG_MOD ->
  to_ulong (to_ulong t - to_ulong last) = t - last.
Proof.
  intros Ht. unfold to_ulong. rewrite <- Zminus_mod.
  apply Z.mod_small. unfold ULONG_MOD in *. lia.
Qed.

Lemma nondecreasing_weaken (a b : Z) (ts : list Z) :
  a <= b -> nondecreasing b ts -> nondecreasing a ts.
Proof. destruct ts as [| t ts]; cbn; [trivial | intros ? [? ?]; split; [lia | assumption]]. Qed.

Lemma nondecreasing_bound (a : Z) (ts : list Z) :
  nondecreasing a ts -> List.Forall (fun t => a <= t) ts.
Proof.
  revert a. induction ts as [| t ts IH]; intros a; cbn; [constructor |].
  intros [Hat Hts]. constructor; [exact Hat |].
  apply IH. now apply nondecreasing_weaken with (b := t).
Qed.

(** X1. A gate with a non-negative period, last fired at time [t0] and then
    polled at times that never go back and stay within one turn of the
    32-bit counter from [t0]: two fires in a row, and [t0] and the first
    fire, are at least one period apart, and a poll on which the gate does
    not fire is less than one period after the last fire before it. *)
Theorem fire_times_spaced (period t0 : Z) (ts : list Z) :
  0 <= period <= LONG_MAX ->
  nondecreasing t0 ts ->
  List.Forall (fun t => t < t0 + 2 ^ 32) ts ->
  let fires := fire_times period (to_ulong t0) ts in
  spaced period t0 fires
  /\ (forall t, In t ts ->
        In t fires \/ exists f, In f (t0 :: fires) /\ f <= t < f + period).
Proof.
  intros Hp. pose proof (to_ulong_long_nonneg period Hp) as Hconv.
  revert t0. induction ts as [| t ts IH]; intros t0 Hasc Hbound; cbv zeta.
  - split; [exact I | intros t []].
  - destruct Hasc as [Hle Hasc].
    apply List.Forall_cons_iff in Hbound as [Hlt Hbound].
    cbn [fire_times]. unfold check_interval.
    rewrite Hconv, ulong_difference by (unfold ULONG_MOD; lia).
    destruct (Z.geb_spec (t - t0) period) as [Hfire | Hquiet].
    + assert (Hbound' : List.Forall (fun t' => t' < t + 2 ^ 32) ts).
      { eapply List.Forall_impl; [| exact Hbound]. cbn. intros; lia. }
      destruct (IH t Hasc Hbound') as [Hsp Hcov].
      split; [split; [lia | exact Hsp] |].
      intros t' [<- | Hin]; [left; now left |].
      destruct (Hcov t' Hin) as [Hf | (f & Hf & Hnear)].
      * left. now right.
      * right. exists f. split; [now right | exact Hnear].
    + assert (Hasc' : nondecreasing t0 ts)
        by (now apply nondecreasing_weaken with (b := t)).
      destruct (IH t0 Hasc' Hbound) as [Hsp Hcov].
      split; [exact Hsp |].
      intros t' [<- | Hin]; [| now apply Hcov].
      right. exists t0. split; [now left | lia].
Qed.

(** A 10 s gate that last fired 9 s before the wrap, polled every 4 s across the wrap of
    the counter. *)
Lemma fire_times_spaced_witness :
  spaced 10000 (2 ^ 32 - 9000)
    (fire_times 10000 (to_ulong (2 ^ 32 - 9000))
       [2 ^ 32 - 5000; 2 ^ 32 - 1000; 2 ^ 32 + 3000; 2 ^ 32 + 7000;
        2 ^ 32 + 11000]).
Proof.
  apply (fire_times_spaced 10000 (2 ^ 32 - 9000)
           [2 ^ 32 - 5000; 2 ^ 32 - 1000; 2 ^ 32 + 3000; 2 ^ 32 + 7000;
            2 ^ 32 + 11000]).
  - unfold LONG_MAX; lia.
  - cbn; lia.
  - repeat constructor.
Defined.

(** X2. A negative [long] interval is converted to [unsigned long] by the
    comparison: the gate then fires exactly when the unsigned difference is
    at least [interval + 2^32], and so never while less than 2^31 ms have
    passed since it last fired. *)
Theorem check_interval_negative_interval (millis previousMillis interval : Z) :
  - LONG_MAX - 1 <= interval < 0 ->
  check_interval millis previousMillis interval
  = (if interval + 2 ^ 32 <=? (millis - previousMillis) mod 2 ^ 32
     then (true, millis) else (false, previousMillis))
  /\ ((millis - previousMillis) mod 2 ^ 32 < 2 ^ 31 ->
      check_interval millis previousMillis interval = (false, previousMillis)).
Proof.
  intros Hneg. pose proof (to_ulong_long_negative interval Hneg) as Hconv.
  unfold check_interval. rewrite Hconv. rewrite Z.geb_leb.
  change (to_ulong (millis - previousMillis))
    with ((millis - previousMillis) mod 2 ^ 32).
  change ULONG_MOD with (2 ^ 32).
  split; [reflexivity |].
  intros Hsmall. unfold LONG_MAX in Hneg.
  destruct (Z.leb_spec (interval + 2 ^ 32)
              ((millis - previousMillis) mod 2 ^ 32)); [lia | reflexivity].
Qed.

(** An interval of -1: one hour after the gate fired it stays shut. *)
Lemma check_interval_negative_interval_witness :
  check_interval 3600000 0 (-1) = (false, 0).
Proof.
  apply (check_interval_negative_interval 3600000 0 (-1));
    [unfold LONG_MAX; lia | vm_compute; reflexivity].
Defined.

(** X3. The gate sees the time that passed only modulo 2^32: when [elapsed]
    milliseconds, however many, passed since it fired, it fires exactly when
    [elapsed mod 2^32] is at least the period, so a wait of a whole turn of
    the counter plus less than a period goes unnoticed. *)
Theorem check_interval_elapsed_modulo (previousMillis period elapsed : Z) :
  0 <= period <= LONG_MAX ->
  0 <= elapsed ->
  let millis := to_ulong (previousMillis + elapsed) in
  check_interval millis previousMillis period
  = if period <=? elapsed mod 2 ^ 32
    then (true, millis) else (false, previousMillis).
Proof.
  intros Hp He. cbv zeta. unfold check_interval.
  rewrite (to_ulong_long_nonneg period Hp), Z.geb_leb.
  replace (to_ulong (to_ulong (previousMillis + elapsed) - previousMillis))
    with (elapsed mod 2 ^ 32); [reflexivity |].
  unfold to_ulong. rewrite Zminus_mod_idemp_l.
  f_equal. lia.
Qed.

(** Forty-nine days, seventeen hours and a little over two minutes: one turn
    of the counter and five seconds. *)
Lemma check_interval_elapsed_modulo_witness :
  check_interval (to_ulong (1000 + (2 ^ 32 + 5000))) 1000 10000 = (false, 1000).
Proof.
  apply (check_interval_elapsed_modulo 1000 10000 (2 ^ 32 + 5000));
    [unfold LONG_MAX; lia | lia].
Defined.

(** ** The samplers over several calls *)

Lemma gate_open_same (millis : Z) (s s' : State) :
  deviceIsOn s' = deviceIsOn s -> lastEvent s' = lastEvent s ->
  gate_open millis s' = gate_open millis s.
Proof. intros Hon Hev. unfold gate_open. now rewrite Hon, Hev. Qed.

(** X4. [setup] calls both samplers for "initial readings", and from the
    globals as they are at power-up neither reads anything early on: the
    temperature handler returns at once because [deviceIsOn] is false, and
    the rain handler logs only if [setup] is reached 10 s or more after
    power-up.  What [setup] always does is send the start-up notification. *)
Theorem setup_initial_readings (w : World) :
  0 <= rain_millis w < 2 ^ 32 ->
  run (setup w) initial_state
  = if rain_millis w <? 10000
    then (tt, initial_state, [SendPushNotification "ESP Device is online"])
    else (tt, set_LM393_previous_millis (rain_millis w) initial_state,
          [SendPushNotification "ESP Device is online";
           SerialRain (rain_analog w) (rain_digital w)]).
Proof.
  intros Hm. unfold setup. rewrite run_bind_call.
  change (run (sendPushNotification "ESP Device is online") initial_state)
    with (tt, initial_state, [SendPushNotification "ESP Device is online"]).
  cbv beta iota. rewrite run_bind_call, handleRainSensor_paths.
  assert (Hgate : rain_gate_open (rain_millis w) initial_state
                  = negb (rain_millis w <? 10000)).
  { unfold rain_gate_open. cbn [LM393_previous_millis initial_state].
    rewrite Z.sub_0_r, to_ulong_small by (unfold ULONG_MOD; lia).
    change LM393_sample_interval with 10000.
    destruct (Z.leb_spec 10000 (rain_millis w)),
      (Z.ltb_spec (rain_millis w) 10000); try reflexivity; lia. }
  rewrite Hgate.
  assert (Hoff : forall s : State, deviceIsOn s = false ->
            run (call (handleTemperaturesensor (dht_millis w)
                         (dht_temperature w) (dht_humidity w) (send_result w)))
              s = (tt, s, [])).
  { intros s Hs.
    pose proof (handleTemperaturesensor_paths (dht_millis w)
                  (dht_temperature w) (dht_humidity w) (send_result w) s)
      as Hrun.
    unfold gate_open in Hrun. rewrite Hs in Hrun. cbn [andb negb] in Hrun.
    unfold run, call in *.
    destruct (handleTemperaturesensor _ _ _ _ s) as [[[[] | []] s'] t'];
      injection Hrun as -> ->; reflexivity. }
  destruct (rain_millis w <? 10000); cbn [negb]; rewrite Hoff; reflexivity.
Qed.

(** [setup] reached two seconds after power-up. *)
Lemma setup_initial_readings_witness :
  run (setup early_world) initial_state
  = (tt, initial_state, [SendPushNotification "ESP Device is online"]).
Proof.
  apply (setup_initial_readings early_world). cbn. lia.
Defined.

(** X5. Whatever [handleTemperaturesensor] hands to [sendTemperatureEvent]
    is the sample of that call, read with the gate open, and neither of its
    two values is a NaN. *)
Theorem sent_sample_is_valid millis t h send (s : State) (t' h' : float) :
  In (SendTemperatureEvent t' h')
     (trace_of (run (handleTemperaturesensor millis t h send) s)) ->
  t' = t /\ h' = h
  /\ F32.isnan t = false /\ F32.isnan h = false
  /\ gate_open millis s = true.
Proof.
  rewrite handleTemperaturesensor_paths.
  destruct (gate_open millis s); cbn [negb]; [| intros []].
  destruct (F32.isnan t || F32.isnan h) eqn:Hnan.
  - cbn. intros [Hin | []]. discriminate Hin.
  - apply orb_false_elim in Hnan as [Ht Hh].
    destruct (send t h); cbn; intros [Hin | [Hin | []]];
      try discriminate Hin; injection Hin as <- <-; repeat split; assumption.
Qed.

(** The sample of 30 degrees sent from [running_state]. *)
Lemma sent_sample_is_valid_witness :
  In (SendTemperatureEvent (F32.of_Z 30) (F32.of_Z 50))
     (trace_of (run (handleTemperaturesensor 71000 (F32.of_Z 30)
                       (F32.of_Z 50) send_succeeds) running_state))
  /\ F32.isnan (F32.of_Z 30) = false /\ F32.isnan (F32.of_Z 50) = false.
Proof.
  assert (Hin : In (SendTemperatureEvent (F32.of_Z 30) (F32.of_Z 50))
                  (trace_of (run (handleTemperaturesensor 71000 (F32.of_Z 30)
                                    (F32.of_Z 50) send_succeeds)
                               running_state)))
    by (left; reflexivity).
  destruct (sent_sample_is_valid 71000 (F32.of_Z 30) (F32.of_Z 50)
              send_succeeds running_state (F32.of_Z 30) (F32.of_Z 50) Hin)
    as (_ & _ & Ht & Hh & _).
  repeat split; assumption.
Defined.

(** X6. An accepted sample becomes the baseline: the call sends the event,
    logs the reading, stores the sample in [lastTemperature] and
    [lastHumidity] and the clock in [lastEvent], and leaves the toggle map,
    [deviceIsOn] and the rain timer alone. *)
Theorem accepted_sample_becomes_baseline millis t h send (s : State) :
  accepted millis t h send s = true ->
  let r := run (handleTemperaturesensor millis t h send) s in
  trace_of r = [SendTemperatureEvent t h; SerialReading t h]
  /\ last_known (final_state r) = (t, h)
  /\ actual (final_state r) = (t, h)
  /\ lastEvent (final_state r) = millis
  /\ globalToggleStates (final_state r) = globalToggleStates s
  /\ deviceIsOn (final_state r) = deviceIsOn s
  /\ LM393_previous_millis (final_state r) = LM393_previous_millis s.
Proof.
  unfold accepted. intros Hacc.
  apply andb_prop in Hacc as [Hacc Hsend].
  apply andb_prop in Hacc as [Hgate Hnan]. apply negb_true_iff in Hnan.
  cbv zeta. rewrite handleTemperaturesensor_paths, Hgate, Hnan, Hsend.
  destruct s; repeat split.
Qed.

(** 30 degrees and 50 percent, 70 s after the last accepted sample. *)
Lemma accepted_sample_becomes_baseline_witness :
  last_known
    (final_state (run (handleTemperaturesensor 71000 (F32.of_Z 30)
                         (F32.of_Z 50) send_succeeds) running_state))
  = (F32.of_Z 30, F32.of_Z 50).
Proof.
  apply (accepted_sample_becomes_baseline 71000 (F32.of_Z 30) (F32.of_Z 50)
           send_succeeds running_state).
  reflexivity.
Defined.

(** X7. After an accepted sample the handler is shut for [EVENT_WAIT_TIME]:
    a call at a clock less than 60 s (modulo 2^32) past the accepted one
    reads nothing, sends nothing and changes nothing, whatever the driver
    and the server would return. *)
Theorem accepted_sample_shuts_gate
    millis t h send (s : State) millis' t' h' send' :
  accepted millis t h send s = true ->
  (millis' - millis) mod 2 ^ 32 < 60000 ->
  let s1 := final_state (run (handleTemperaturesensor millis t h send) s) in
  run (handleTemperaturesensor millis' t' h' send') s1 = (tt, s1, []).
Proof.
  unfold accepted. intros Hacc Hsoon.
  apply andb_prop in Hacc as [Hacc Hsend].
  apply andb_prop in Hacc as [Hgate Hnan]. apply negb_true_iff in Hnan.
  cbv zeta.
  rewrite (handleTemperaturesensor_paths millis), Hgate, Hnan, Hsend.
  cbn [negb]. unfold final_state; cbn [fst snd].
  rewrite handleTemperaturesensor_paths.
  assert (Hshut : gate_open millis' (promoted millis t h s) = false).
  { unfold gate_open. destruct s; cbn [promoted sampled set_lastEvent
      set_lastHumidity set_lastTemperature set_humidity set_temperature
      lastEvent deviceIsOn].
    apply andb_false_intro2, negb_false_iff, Z.ltb_lt. exact Hsoon. }
  now rewrite Hshut.
Qed.

(** Half a minute after the accepted sample at 71 s. *)
Lemma accepted_sample_shuts_gate_witness :
  let s1 := final_state (run (handleTemperaturesensor 71000 (F32.of_Z 30)
                                (F32.of_Z 50) send_succeeds) running_state) in
  run (handleTemperaturesensor 101000 (F32.of_Z 35) (F32.of_Z 20)
         send_succeeds) s1
  = (tt, s1, []).
Proof.
  apply (accepted_sample_shuts_gate 71000 (F32.of_Z 30) (F32.of_Z 50)
           send_succeeds running_state 101000);
    [reflexivity | vm_compute; reflexivity].
Defined.

Lemma run_calls_cons (c : DhtCall) (cs : list DhtCall) send (s : State) :
  run (handleTemperaturesensor_calls (c :: cs) send) s =
  let '(_, s1, t1) :=
    run (handleTemperaturesensor (call_millis c) (call_temperature c)
           (call_humidity c) send) s in
  let '(r, s2, t2) := run (handleTemperaturesensor_calls cs send) s1 in
  (r, s2, t1 ++ t2).
Proof. cbn [handleTemperaturesensor_calls]. apply run_bind_call. Qed.

(** X8. A refused event is not held back: as long as the server refuses,
    every call made with the gate open and a sample free of NaN sends its
    sample again, one event per call, and the baseline and the gate stay as
    they were before the first of them. *)
Theorem refused_events_are_resent (cs : list DhtCall) send (s : State) :
  List.Forall (sendable s) cs ->
  List.Forall (fun c => send (call_temperature c) (call_humidity c) = false)
    cs ->
  let r := run (handleTemperaturesensor_calls cs send) s in
  List.filter is_send (trace_of r) = List.map send_of cs
  /\ last_known (final_state r) = last_known s
  /\ lastEvent (final_state r) = lastEvent s
  /\ deviceIsOn (final_state r) = deviceIsOn s.
Proof.
  revert s. induction cs as [| c cs IH]; intros s Hok Hfail; cbv zeta.
  - repeat split.
  - apply List.Forall_cons_iff in Hok as [(Hgate & Ht & Hh) Hok].
    apply List.Forall_cons_iff in Hfail as [Hc Hfail].
    rewrite run_calls_cons, handleTemperaturesensor_paths.
    rewrite Hgate, Ht, Hh, Hc. cbn [negb orb].
    set (s1 := sampled (call_temperature c) (call_humidity c) s).
    assert (Hsame : deviceIsOn s1 = deviceIsOn s /\ lastEvent s1 = lastEvent s
                    /\ last_known s1 = last_known s)
      by (destruct s; repeat split).
    destruct Hsame as (Hon & Hev & Hlk).
    assert (Hok1 : List.Forall (sendable s1) cs).
    { eapply List.Forall_impl; [| exact Hok].
      intros c' (Hg' & Ht' & Hh'). repeat split; try assumption.
      all: now rewrite (gate_open_same _ s s1 Hon Hev). }
    specialize (IH s1 Hok1 Hfail). cbv zeta in IH.
    destruct (run (handleTemperaturesensor_calls cs send) s1)
      as [[[] s2] t2].
    unfold final_state, trace_of in *; cbn [fst snd] in *.
    destruct IH as (IHt & IHk & IHe & IHo).
    cbn [app List.filter is_send List.map]. unfold send_of at 1.
    rewrite IHt. repeat split; congruence.
Qed.

(** Three iterations in a row, 70 s after the last accepted sample, with a
    server that refuses. *)
Lemma refused_events_are_resent_witness :
  List.filter is_send
    (trace_of (run (handleTemperaturesensor_calls refused_calls send_fails)
                 running_state))
  = List.map send_of refused_calls.
Proof.
  apply (refused_events_are_resent refused_calls send_fails running_state);
    repeat constructor.
Defined.

(** X9. [lastEvent] starts at [(unsigned long)(-EVENT_WAIT_TIME)], so a
    device that is on meets an open gate from power-up on, without a first
    wait of 60 s, until the clock is within 60 s of its wrap. *)
Theorem first_sample_not_delayed (millis : Z) (s : State) :
  lastEvent s = lastEvent initial_state ->
  deviceIsOn s = true ->
  0 <= millis < 2 ^ 32 ->
  gate_open millis s = (millis <? 2 ^ 32 - 60000).
Proof.
  intros Hev Hon Hm. unfold gate_open. rewrite Hev, Hon. cbn [andb].
  change (lastEvent initial_state) with (2 ^ 32 - 60000).
  change EVENT_WAIT_TIME with 60000.
  destruct (Z.ltb_spec millis (2 ^ 32 - 60000)) as [Hearly | Hlate].
  - replace (to_ulong (millis - (2 ^ 32 - 60000))) with (millis + 60000).
    + destruct (Z.ltb_spec (millis + 60000) 60000); [lia | reflexivity].
    + unfold to_ulong, ULONG_MOD.
      rewrite <- (Z.mod_add (millis - (2 ^ 32 - 60000)) 1 (2 ^ 32)) by lia.
      symmetry. rewrite Z.mod_small by lia. lia.
  - rewrite to_ulong_small by (unfold ULONG_MOD; lia).
    destruct (Z.ltb_spec (millis - (2 ^ 32 - 60000)) 60000); [reflexivity | lia].
Qed.

(** The device switched on, two seconds after power-up. *)
Lemma first_sample_not_delayed_witness :
  gate_open 2000 switched_on_state = true.
Proof.
  apply (first_sample_not_delayed 2000 switched_on_state);
    [reflexivity | reflexivity | lia].
Defined.

(** ** The sketch as a whole *)

Lemma filter_send_toggle_lines reqs :
  List.filter is_send (List.map toggle_line reqs) = [].
Proof. induction reqs as [| r reqs IH]; [reflexivity | exact IH]. Qed.

Lemma loop_when_off (w : World) (s : State) :
  deviceIsOn s = false -> sensor_idle s (run (loop w) s).
Proof.
  intros Hoff. unfold sensor_idle. rewrite loop_run. cbv zeta.
  rewrite handleDisplay_run, handleTemperaturesensor_paths,
    handleRainSensor_paths, handleKeypad_run, SinricPro_handle_run.
  destruct (toggle_lines_quiet (toggle_requests w)) as [_ Hq].
  pose proof (filter_send_toggle_lines (toggle_requests w)) as Hf.
  unfold final_state, trace_of; cbn [fst snd].
  destruct s as [tg on t0 h0 lt lh le pm]. cbn [deviceIsOn] in Hoff. subst on.
  destruct (rain_gate_open _ _); cbn [fst snd];
    unfold gate_open, set_globalToggleStates, set_LM393_previous_millis;
    cbn [deviceIsOn lastEvent andb negb fst snd app];
    rewrite ?displayed_app, ?List.filter_app;
    cbn [displayed List.filter is_send];
    rewrite ?displayed_app, ?List.filter_app;
    cbn [displayed List.filter is_send];
    rewrite Hq, Hf; repeat split; repeat constructor.
Qed.

Lemma setup_when_off (w : World) (s : State) :
  deviceIsOn s = false -> sensor_idle s (run (setup w) s).
Proof.
  intros Hoff. unfold sensor_idle, setup. rewrite run_bind_call.
  change (run (sendPushNotification "ESP Device is online") s)
    with (tt, s, [SendPushNotification "ESP Device is online"]).
  cbv beta iota. rewrite run_bind_call, handleRainSensor_paths.
  assert (Hidle : forall s0 : State, deviceIsOn s0 = false ->
            run (call (handleTemperaturesensor (dht_millis w)
                         (dht_temperature w) (dht_humidity w) (send_result w)))
              s0 = (tt, s0, [])).
  { intros s0 Hs0.
    pose proof (handleTemperaturesensor_paths (dht_millis w)
                  (dht_temperature w) (dht_humidity w) (send_result w) s0)
      as Hrun.
    unfold gate_open in Hrun. rewrite Hs0 in Hrun. cbn [andb negb] in Hrun.
    unfold run, call in *.
    destruct (handleTemperaturesensor _ _ _ _ s0) as [[[[] | []] s'] t'];
      injection Hrun as -> ->; reflexivity. }
  destruct (rain_gate_open _ _); rewrite Hidle by (destruct s; exact Hoff);
    unfold final_state, trace_of; cbn [fst snd app List.filter is_send displayed];
    destruct s; repeat split; try assumption; constructor.
Qed.

Lemma sensor_idle_then (s : State) (r1 r2 : unit * State * list Event) :
  sensor_idle s r1 -> sensor_idle (final_state r1) r2 ->
  sensor_idle s (tt, final_state r2, trace_of r1 ++ trace_of r2).
Proof.
  unfold sensor_idle, final_state, trace_of; cbn [fst snd].
  intros (Ho1 & Ha1 & Hk1 & He1 & Hs1 & Hd1) (Ho2 & Ha2 & Hk2 & He2 & Hs2 & Hd2).
  rewrite List.filter_app, displayed_app, Hs1, Hs2.
  repeat split; try congruence.
  apply List.Forall_app. split; [exact Hd1 |].
  eapply List.Forall_impl; [| exact Hd2]. cbn. intros d ->. exact Ha1.
Qed.

Lemma iterations_when_off (ws : list World) :
  forall s : State,
    deviceIsOn s = false -> sensor_idle s (run (iterations ws) s).
Proof.
  induction ws as [| w ws IH]; intros s Hoff.
  - unfold sensor_idle. cbn. repeat split; [exact Hoff | constructor].
  - cbn [iterations]. rewrite run_bind_call.
    pose proof (loop_when_off w s Hoff) as Hloop.
    destruct (run (loop w) s) as [[[] s1] t1] eqn:Hr1.
    assert (Hoff1 : deviceIsOn s1 = false) by (apply Hloop).
    specialize (IH s1 Hoff1).
    destruct (run (iterations ws) s1) as [[[] s2] t2] eqn:Hr2.
    apply (sensor_idle_then s (tt, s1, t1) (tt, s2, t2) Hloop IH).
Qed.

(** X10. Nothing in the sketch writes [deviceIsOn].  From globals in which
    it is false, as at power-up, [setup] and any number of iterations of
    [loop] send no temperature event, whatever the driver returns; the
    globals [temperature], [humidity], [lastTemperature], [lastHumidity] and
    [lastEvent] keep their values, and every line the display handler writes
    shows those same two values. *)
Theorem sketch_sensor_stays_idle (w0 : World) (ws : list World) (s : State) :
  deviceIsOn s = false ->
  sensor_idle s (run (sketch w0 ws) s).
Proof.
  intros Hoff. unfold sketch. rewrite run_bind_call.
  pose proof (setup_when_off w0 s Hoff) as Hsetup.
  destruct (run (setup w0) s) as [[[] s1] t1].
  assert (Hoff1 : deviceIsOn s1 = false) by (apply Hsetup).
  pose proof (iterations_when_off ws s1 Hoff1) as Hiter.
  destruct (run (iterations ws) s1) as [[[] s2] t2].
  apply (sensor_idle_then s (tt, s1, t1) (tt, s2, t2) Hsetup Hiter).
Qed.

(** From power-up, with a driver that reads 22 degrees and then fails. *)
Lemma sketch_sensor_stays_idle_witness :
  sensor_idle initial_state
    (run (sketch early_world [glitch_world; glitch_world]) initial_state).
Proof.
  apply (sketch_sensor_stays_idle early_world [glitch_world; glitch_world]
           initial_state).
  reflexivity.
Defined.

Lemma filter_push_handlers (w : World) (s : State) :
  List.filter is_push
    (trace_of (run (handleRainSensor (rain_millis w) (rain_analog w)
                      (rain_digital w)) s)) = []
  /\ List.filter is_push
       (trace_of (run (handleTemperaturesensor (dht_millis w)
                         (dht_temperature w) (dht_humidity w)
                         (send_result w)) s)) = [].
Proof.
  rewrite handleRainSensor_paths, handleTemperaturesensor_paths.
  split.
  - destruct (rain_gate_open _ _); reflexivity.
  - destruct (negb (gate_open _ _)); [reflexivity |].
    destruct (F32.isnan _ || F32.isnan _); [reflexivity |].
    destruct (send_result _ _ _); reflexivity.
Qed.

Lemma iterations_dispatch_no_push (ws : list World) :
  forall s : State,
    List.filter is_push (trace_of (run (iterations ws) s)) = [].
Proof.
  induction ws as [| w ws IH]; intros s; [reflexivity |].
  cbn [iterations]. rewrite run_bind_call.
  pose proof (loop_dispatches_no_push w s) as Hloop.
  destruct (run (loop w) s) as [[[] s1] t1].
  specialize (IH s1).
  destruct (run (iterations ws) s1) as [[[] s2] t2].
  unfold trace_of in *; cbn [fst snd] in *.
  now rewrite List.filter_app, Hloop, IH.
Qed.

(** X11. From any globals and whatever the world supplies, the sketch
    dispatches one push notification and one only: the start-up message of
    [setup].  No sensor value, rain or temperature, ever leads to another. *)
Theorem sketch_single_push (w0 : World) (ws : list World) (s : State) :
  List.filter is_push (trace_of (run (sketch w0 ws) s))
  = [SendPushNotification "ESP Device is online"].
Proof.
  unfold sketch. rewrite run_bind_call.
  assert (Hsetup : List.filter is_push (trace_of (run (setup w0) s))
                   = [SendPushNotification "ESP Device is online"]).
  { unfold setup. rewrite run_bind_call.
    change (run (sendPushNotification "ESP Device is online") s)
      with (tt, s, [SendPushNotification "ESP Device is online"]).
    cbv beta iota. rewrite run_bind_call.
    destruct (filter_push_handlers w0 s) as [Hrain _].
    destruct (run (handleRainSensor _ _ _) s) as [[[] s1] t1].
    destruct (filter_push_handlers w0 s1) as [_ Htemp].
    assert (Hcall : trace_of (run (call (handleTemperaturesensor (dht_millis w0)
                       (dht_temperature w0) (dht_humidity w0) (send_result w0)))
                                s1)
                    = trace_of (run (handleTemperaturesensor (dht_millis w0)
                       (dht_temperature w0) (dht_humidity w0) (send_result w0))
                                  s1)).
    { unfold run, call.
      destruct (handleTemperaturesensor _ _ _ _ s1) as [[[[] | []] s'] t'];
        reflexivity. }
    rewrite <- Hcall in Htemp.
    destruct (run (call _) s1) as [[[] s2] t2].
    unfold trace_of in *; cbn [fst snd] in *.
    cbn [app List.filter is_push].
    now rewrite List.filter_app, Hrain, Htemp. }
  destruct (run (setup w0) s) as [[[] s1] t1].
  pose proof (iterations_dispatch_no_push ws s1) as Hiter.
  destruct (run (iterations ws) s1) as [[[] s2] t2].
  unfold trace_of in *; cbn [fst snd] in *.
  now rewrite List.filter_app, Hsetup, Hiter.
Qed.

(** ** KeyDecoder beyond the 4x4 matrix *)

Lemma raw_event_byte (press : bool) (r c : Z) :
  0 <= r -> 0 <= c <= 9 -> r * 10 + c + 1 <= 127 ->
  0 <= raw_event press r c < 256
  /\ raw_event press r c mod 128 = r * 10 + c + 1
  /\ (128 <=? raw_event press r c) = press.
Proof.
  intros Hr Hc Hidx. unfold raw_event. destruct press; repeat split; try lia.
  - replace (128 + (r * 10 + c + 1)) with (r * 10 + c + 1 + 1 * 128) by lia.
    rewrite Z.mod_add by lia. apply Z.mod_small. lia.
  - apply Z.mod_small. lia.
Qed.

Lemma index_split (r c : Z) :
  0 <= r -> 0 <= c <= 9 ->
  (r * 10 + c) / 10 = r /\ (r * 10 + c) mod 10 = c.
Proof.
  intros Hr Hc. split.
  - symmetry. apply Z.div_unique with (r := c); lia.
  - symmetry. apply Z.mod_unique with (q := r); lia.
Qed.

(** The key at row [r], column [c] of the matrix, pressed or released. *)
Lemma get_key_matrix (press : bool) (r c : Z) :
  0 <= r < ROWS -> 0 <= c < COLS ->
  get_key (Some (raw_event press r c))
  = (Some (mkKeyLine press r c (keymap_at c r)), keymap_at c r).
Proof.
  unfold ROWS, COLS. intros Hr Hc.
  destruct (raw_event_byte press r c) as (Hb & Hm & Hp); try lia.
  rewrite get_key_run by exact Hb. cbv zeta. rewrite Hm, Hp.
  replace (r * 10 + c + 1 - 1) with (r * 10 + c) by lia.
  destruct (decode_index (r * 10 + c)) as [-> ->]; [lia |].
  destruct (index_split r c) as [-> ->]; try lia. reflexivity.
Qed.

(** X12. Decoding undoes the encoding of the keypad controller over its
    whole range, not only the 4x4 corner: for any row [r] and column
    [c <= 9] whose index [r * 10 + c + 1] fits the seven bits, pressed or
    released, [get_key] finds the edge, [r] and [c] again. *)
Theorem get_key_round_trip (press : bool) (r c : Z) :
  0 <= r -> 0 <= c <= 9 -> r * 10 + c + 1 <= 127 ->
  fst (get_key (Some (raw_event press r c)))
  = Some (mkKeyLine press r c (keymap_at c r)).
Proof.
  intros Hr Hc Hidx.
  destruct (raw_event_byte press r c) as (Hb & Hm & Hp); try assumption.
  rewrite get_key_run by exact Hb. cbv zeta. rewrite Hm, Hp.
  replace (r * 10 + c + 1 - 1) with (r * 10 + c) by lia.
  destruct (decode_index (r * 10 + c)) as [-> ->]; [lia |].
  destruct (index_split r c) as [-> ->]; try assumption. reflexivity.
Qed.

(** The release of the key at row 7, column 9, the last one of the
    controller's 8x10 matrix. *)
Lemma get_key_round_trip_witness :
  fst (get_key (Some (raw_event false 7 9)))
  = Some (mkKeyLine false 7 9 (OutOfBounds 9 7)).
Proof.
  apply (get_key_round_trip false 7 9); lia.
Defined.

(** X13. [get_key] reads inside the table exactly for the bytes that carry
    the index of one of the 16 matrix keys: index at least 1, row below 4 and
    column below 4.  That is 32 of the 256 bytes; for each of the other 224
    the read is out of bounds. *)
Theorem get_key_in_table_iff (k : Z) :
  0 <= k < 256 ->
  (in_table (snd (get_key (Some k))) = matrix_byte k)
  /\ List.length (List.filter (fun b => in_table (snd (get_key (Some b))))
                    all_bytes) = 32%nat
  /\ List.length (List.filter
                    (fun b => negb (in_table (snd (get_key (Some b)))))
                    all_bytes) = 224%nat.
Proof.
  intros Hk. split; [| split; vm_compute; reflexivity].
  apply Bool.eqb_prop.
  apply (byte_cases
           (fun b => Bool.eqb (in_table (snd (get_key (Some b))))
                       (matrix_byte b)));
    [vm_compute; reflexivity | exact Hk].
Qed.

(** Byte 34, the release of row 3, column 3, and byte 35, one further. *)
Lemma get_key_in_table_iff_witness :
  in_table (snd (get_key (Some 34))) = true
  /\ in_table (snd (get_key (Some 35))) = false.
Proof.
  split.
  - destruct (get_key_in_table_iff 34) as [-> _]; [lia | reflexivity].
  - destruct (get_key_in_table_iff 35) as [-> _]; [lia | reflexivity].
Defined.

(** X14. Two different keys of the 4x4 matrix never decode to the same
    symbol, whatever their edges. *)
Theorem get_key_injective (p p' : bool) (r c r' c' : Z) :
  0 <= r < ROWS -> 0 <= c < COLS -> 0 <= r' < ROWS -> 0 <= c' < COLS ->
  snd (get_key (Some (raw_event p r c)))
  = snd (get_key (Some (raw_event p' r' c'))) ->
  r = r' /\ c = c'.
Proof.
  intros Hr Hc Hr' Hc'.
  rewrite !get_key_matrix by assumption. cbn [snd].
  unfold ROWS, COLS in *.
  assert (Hrs : r = 0 \/ r = 1 \/ r = 2 \/ r = 3) by lia.
  assert (Hcs : c = 0 \/ c = 1 \/ c = 2 \/ c = 3) by lia.
  assert (Hrs' : r' = 0 \/ r' = 1 \/ r' = 2 \/ r' = 3) by lia.
  assert (Hcs' : c' = 0 \/ c' = 1 \/ c' = 2 \/ c' = 3) by lia.
  destruct Hrs as [-> | [-> | [-> | ->]]];
    destruct Hcs as [-> | [-> | [-> | ->]]];
    destruct Hrs' as [-> | [-> | [-> | ->]]];
    destruct Hcs' as [-> | [-> | [-> | ->]]];
    cbn; intros Heq; try discriminate Heq; split; reflexivity.
Qed.

(** The same key, pressed and released. *)
Lemma get_key_injective_witness :
  snd (get_key (Some (raw_event true 2 1)))
  = snd (get_key (Some (raw_event false 2 1)))
  /\ (2 = 2 /\ 1 = 1).
Proof.
  assert (Hsame : snd (get_key (Some (raw_event true 2 1)))
                  = snd (get_key (Some (raw_event false 2 1))))
    by reflexivity.
  split; [exact Hsame |].
  apply (get_key_injective true false 2 1 2 1);
    unfold ROWS, COLS; try lia; exact Hsame.
Defined.

(** X15. [get_key] returns the same character for the press and for the
    release of a key: the edge is printed and then dropped, so a caller that
    switches on the returned character sees every keystroke twice. *)
Theorem get_key_drops_edge (k : Z) :
  0 <= k < 128 ->
  snd (get_key (Some (k + 128))) = snd (get_key (Some k))
  /\ (exists r c l,
        fst (get_key (Some k)) = Some (mkKeyLine false r c l)
        /\ fst (get_key (Some (k + 128))) = Some (mkKeyLine true r c l)).
Proof.
  intros Hk.
  rewrite (get_key_run k), (get_key_run (k + 128)) by lia. cbv zeta.
  replace ((k + 128) mod 128) with (k mod 128)
    by (rewrite <- (Z.mod_add k 1 128) by lia; f_equal; lia).
  replace (128 <=? k) with false by (symmetry; apply Z.leb_gt; lia).
  replace (128 <=? k + 128) with true by (symmetry; apply Z.leb_le; lia).
  split; [reflexivity |]. eauto.
Qed.

(** The key at row 2, column 1. *)
Lemma get_key_drops_edge_witness :
  snd (get_key (Some 150)) = snd (get_key (Some 22)).
Proof.
  apply (get_key_drops_edge 22). lia.
Defined.

(** X16. For a byte that carries the index of one of the 16 keys of the
    matrix, pressed or released, [get_key] returns a character of the table,
    and none of them is the character 0 it returns when no event is pending:
    for these bytes the caller can tell a key from "no key".  (For the other
    bytes the read is past the table and what comes back is not defined.) *)
Theorem get_key_no_key_distinct (k : Z) :
  0 <= k < 256 ->
  matrix_byte k = true ->
  (exists sym, snd (get_key (Some k)) = Sym sym /\ sym <> Ascii.zero)
  /\ snd (get_key (Some k)) <> snd (get_key None).
Proof.
  intros Hk Hkey.
  assert (Hok : implb (matrix_byte k)
                  (in_table (snd (get_key (Some k)))
                   && negb (is_no_key (snd (get_key (Some k))))) = true).
  { apply (byte_cases
             (fun b => implb (matrix_byte b)
                         (in_table (snd (get_key (Some b)))
                          && negb (is_no_key (snd (get_key (Some b)))))));
      [vm_compute; reflexivity | exact Hk]. }
  rewrite Hkey in Hok. cbn [implb] in Hok.
  apply andb_prop in Hok as [Hin Hno]. apply negb_true_iff in Hno.
  destruct (snd (get_key (Some k))) as [sym | i j] eqn:Hres;
    [| discriminate Hin].
  cbn [is_no_key] in Hno. apply Ascii.eqb_neq in Hno.
  split; [exists sym; split; [reflexivity | exact Hno] |].
  cbn [get_key snd]. congruence.
Qed.

(** The press of the key that shows 0. *)
Lemma get_key_no_key_distinct_witness :
  snd (get_key (Some (raw_event true 1 3))) <> Sym Ascii.zero.
Proof.
  apply (get_key_no_key_distinct (raw_event true 1 3));
    [unfold raw_event; lia | reflexivity].
Defined.

(** X17. The table is declared [keymap[ROWS][COLS]] and read as
    [keymap[col][row]]: for a key of the 4x4 matrix the symbol [get_key]
    returns is the entry the table holds at line [row], position [col] only
    on the diagonal; for the twelve other keys it is the entry of the
    mirrored key. *)
Theorem get_key_transposed (press : bool) (r c : Z) :
  0 <= r < ROWS -> 0 <= c < COLS ->
  snd (get_key (Some (raw_event press r c))) = keymap_at c r
  /\ (snd (get_key (Some (raw_event press r c))) = keymap_at r c <-> r = c).
Proof.
  intros Hr Hc.
  rewrite !get_key_matrix by assumption. cbn [snd].
  split; [reflexivity |].
  unfold ROWS, COLS in *.
  assert (Hrs : r = 0 \/ r = 1 \/ r = 2 \/ r = 3) by lia.
  assert (Hcs : c = 0 \/ c = 1 \/ c = 2 \/ c = 3) by lia.
  destruct Hrs as [-> | [-> | [-> | ->]]];
    destruct Hcs as [-> | [-> | [-> | ->]]];
    cbn; split; intros Heq; try reflexivity; try discriminate Heq; lia.
Qed.

(** Row 2, column 1: the table shows 8 there, [get_key] returns 6. *)
Lemma get_key_transposed_witness :
  snd (get_key (Some (raw_event true 2 1))) = Sym "6"%char
  /\ keymap_at 2 1 = Sym "8"%char.
Proof.
  split; [| reflexivity].
  apply (get_key_transposed true 2 1); unfold ROWS, COLS; lia.
Defined.

(** X18. [testKeypad] prints for an event exactly the line [get_key] prints:
    for any count the controller can report, the two tests of
    [keypad.available()], [> 0] in one and non-zero in the other, agree, and
    the decoding is the same. *)
Theorem testKeypad_prints_like_get_key (available getEvent : Z) :
  0 <= available ->
  testKeypad available getEvent
  = fst (get_key (pending_of available getEvent)).
Proof.
  intros Ha. unfold testKeypad, pending_of.
  destruct (Z.gtb_spec available 0), (Z.eqb_spec available 0);
    try lia; reflexivity.
Qed.

(** One event pending, the press of row 2, column 1. *)
Lemma testKeypad_prints_like_get_key_witness :
  testKeypad 1 150 = Some (mkKeyLine true 2 1 (Sym "6"%char)).
Proof.
  rewrite (testKeypad_prints_like_get_key 1 150); [reflexivity | lia].
Defined.

(** ** ToggleController over a batch *)

Lemma apply_toggles_lookup (reqs : list (string * string * bool)) :
  forall (m : gmap string bool) (i : string),
    apply_toggles reqs m !! i
    = match last_request i reqs with
      | Some b => Some b
      | None => m !! i
      end.
Proof.
  induction reqs as [| [[d j] b] reqs IH]; intros m i; [reflexivity |].
  cbn [last_request]. unfold apply_toggles in *. cbn [fold_left fst snd].
  rewrite IH. destruct (last_request i reqs); [reflexivity |].
  destruct (String.eqb_spec i j) as [-> | Hne].
  - apply lookup_insert_eq.
  - apply lookup_insert_ne. congruence.
Qed.

Lemma last_request_app (i : string) (a b : list (string * string * bool)) :
  last_request i (a ++ b)
  = match last_request i b with
    | Some x => Some x
    | None => last_request i a
    end.
Proof.
  induction a as [| [[d j] x] a IH]; cbn [app last_request].
  - now destruct (last_request i b).
  - rewrite IH. destruct (last_request i b); reflexivity.
Qed.

(** X19. After a batch of toggle requests each instance holds the state its
    last request in the batch asked for, an instance no request names holds
    what it held before, and no key leaves the map; the callback logs one
    line per request, in order. *)
Theorem toggles_last_request_wins
    (reqs : list (string * string * bool)) (s : State) :
  let r := run (SinricPro_handle reqs) s in
  (forall i,
     globalToggleStates (final_state r) !! i
     = match last_request i reqs with
       | Some b => Some b
       | None => globalToggleStates s !! i
       end)
  /\ (forall i, is_Some (globalToggleStates s !! i) ->
        is_Some (globalToggleStates (final_state r) !! i))
  /\ trace_of r = List.map toggle_line reqs.
Proof.
  cbv zeta. rewrite SinricPro_handle_run.
  unfold final_state, trace_of; cbn [fst snd].
  assert (Hmap : globalToggleStates
                   (set_globalToggleStates
                      (apply_toggles reqs (globalToggleStates s)) s)
                 = apply_toggles reqs (globalToggleStates s))
    by (destruct s; reflexivity).
  rewrite Hmap. split; [| split; [| reflexivity]].
  - intros i. apply apply_toggles_lookup.
  - intros i Hi. rewrite apply_toggles_lookup.
    destruct (last_request i reqs); [eauto | exact Hi].
Qed.

(** X20. Delivering a batch of toggle requests a second time changes
    nothing in the map: the globals after the batch twice are the globals
    after the batch once. *)
Theorem toggles_redelivery_harmless
    (reqs : list (string * string * bool)) (s : State) :
  final_state (run (SinricPro_handle (reqs ++ reqs)) s)
  = final_state (run (SinricPro_handle reqs) s).
Proof.
  rewrite !SinricPro_handle_run. unfold final_state; cbn [fst snd].
  f_equal. apply map_eq. intros i.
  rewrite !apply_toggles_lookup, last_request_app.
  destruct (last_request i reqs); reflexivity.
Qed.

(** ** Power-up *)

Lemma wifi_wait_connects (connected : nat -> bool) (n : nat) :
  forall (polls k : nat),
    connected (k + n)%nat = true ->
    (forall m : nat, (m < n)%nat -> connected (k + m)%nat = false) ->
    (n < polls)%nat ->
    wifi_wait polls connected k = Returns (dots n).
Proof.
  induction n as [| n IH]; intros polls k Hup Hdown Hlt;
    (destruct polls as [| polls]; [lia |]); cbn [wifi_wait dots].
  - rewrite Nat.add_0_r in Hup. now rewrite Hup.
  - pose proof (Hdown 0%nat ltac:(lia)) as H0. rewrite Nat.add_0_r in H0.
    rewrite H0, (IH polls (S k)); [reflexivity | | | lia].
    + now rewrite Nat.add_succ_comm.
    + intros m Hm. rewrite Nat.add_succ_comm. apply Hdown. lia.
Qed.

Lemma wifi_wait_waits (connected : nat -> bool) (polls : nat) :
  forall k : nat,
    (forall m : nat, (m < polls)%nat -> connected (k + m)%nat = false) ->
    wifi_wait polls connected k = Waiting (dots polls).
Proof.
  induction polls as [| polls IH]; intros k Hdown; cbn [wifi_wait dots];
    [reflexivity |].
  pose proof (Hdown 0%nat ltac:(lia)) as H0. rewrite Nat.add_0_r in H0.
  rewrite H0, (IH (S k)); [reflexivity |].
  intros m Hm. rewrite Nat.add_succ_comm. apply Hdown. lia.
Qed.

Lemma wifi_wait_cases (connected : nat -> bool) (polls : nat) :
  forall k : nat,
    (exists n : nat,
        (n < polls)%nat /\ connected (k + n)%nat = true
        /\ (forall m : nat, (m < n)%nat -> connected (k + m)%nat = false)
        /\ wifi_wait polls connected k = Returns (dots n))
    \/ ((forall m : nat, (m < polls)%nat -> connected (k + m)%nat = false)
        /\ wifi_wait polls connected k = Waiting (dots polls)).
Proof.
  induction polls as [| polls IH]; intros k.
  - right. split; [intros m Hm; lia | reflexivity].
  - destruct (connected k) eqn:Hk.
    + left. exists 0%nat. rewrite Nat.add_0_r.
      repeat split; [lia | exact Hk | intros m Hm; lia |].
      cbn [wifi_wait dots]. now rewrite Hk.
    + destruct (IH (S k)) as [(n & Hn & Hup & Hdown & Hrun) | [Hdown Hrun]].
      * left. exists (S n). rewrite <- Nat.add_succ_comm.
        repeat split; [lia | exact Hup | |].
        -- intros [| m] Hm; [now rewrite Nat.add_0_r |].
           rewrite <- Nat.add_succ_comm. apply Hdown. lia.
        -- cbn [wifi_wait dots]. now rewrite Hk, Hrun.
      * right. split.
        -- intros [| m] Hm; [now rewrite Nat.add_0_r |].
           rewrite <- Nat.add_succ_comm. apply Hdown. lia.
        -- cbn [wifi_wait dots]. now rewrite Hk, Hrun.
Qed.

(** X21. [setup] returns exactly when [keypad.begin] succeeds and some
    observed poll of [WiFi.status()] finds the network up.  When the keypad
    is not found it prints "Keypad not found!" and stays in the [while (1);]
    of [setupKeypad]; and whenever it does not return, nothing of the sketch
    proper has run: no notification, no sample. *)
Theorem power_up_returns_iff
    (begin_ok : bool) (polls : nat) (connected : nat -> bool)
    (w : World) (s : State) :
  ((exists tr, power_up begin_ok polls connected w s = Returns tr)
   <-> begin_ok = true
       /\ exists n : nat, (n < polls)%nat /\ connected n = true)
  /\ (begin_ok = false ->
      power_up begin_ok polls connected w s
      = Trapped [SerialBegin 115200; PinModeInput 17; PinModeInput 36;
                 KeypadBegin; SerialPrintln "Keypad not found!"])
  /\ ((forall tr, power_up begin_ok polls connected w s <> Returns tr) ->
      List.filter is_sketch
        (events_of (power_up begin_ok polls connected w s)) = []).
Proof.
  assert (Hquiet : forall n, List.filter is_sketch (dots n) = []).
  { induction n as [| n IH]; [reflexivity | exact IH]. }
  destruct begin_ok.
  - unfold power_up, setupWiFi.
    destruct (wifi_wait_cases connected polls 0)
      as [(n & Hn & Hup & Hdown & Hrun) | [Hdown Hrun]]; rewrite Hrun;
      cbn [setupKeypad negb setupSinricPro and_then events_of].
    + split; [| split].
      * split; [intros _; split; [reflexivity | exists n; auto] | eauto].
      * discriminate.
      * intros Hnot. exfalso. eapply Hnot. reflexivity.
    + split; [| split].
      * split; [intros [tr Htr]; discriminate Htr |].
        intros [_ (n & Hn & Hup)]. pose proof (Hdown n Hn) as Hd.
        cbn [Nat.add] in Hd. congruence.
      * discriminate.
      * intros _. cbn [app List.filter is_sketch]. apply Hquiet.
  - split; [| split].
    + split; [intros [tr Htr]; discriminate Htr | intros [Hb _]; discriminate Hb].
    + reflexivity.
    + reflexivity.
Qed.

(** X22. With the keypad found and the network up at poll number [n] of
    [WiFi.status()] and not before, [setup] returns once more than [n] polls
    are observed: [setupWiFi] announces the network by its name, prints [n]
    dots, each followed by a pause of 250 ms, and then "connected" and a line
    end; only then are the toggle callback and the two connection callbacks
    registered and Sinric Pro begun, the start-up notification sent and the
    samplers called, once. *)
Theorem power_up_after_connection
    (polls n : nat) (connected : nat -> bool) (w : World) (s : State) :
  connects_at connected n ->
  (n < polls)%nat ->
  power_up true polls connected w s
  = Returns
      ([SerialBegin 115200; PinModeInput 17; PinModeInput 36;
        KeypadBegin; SerialPrintln "Keypad initialized!";
        KeypadMatrix 4 4; KeypadFlush;
        WiFiSetSleep false; WiFiSetAutoReconnect true; WiFiBegin;
        SerialPrint "[WiFi]: Connecting to Pixel_7137"]
       ++ dots n
       ++ [SerialPrint (String.append "connected" CRLF);
           RegisterToggle "toggleInstance1"; RegisterOnConnected;
           RegisterOnDisconnected; SinricProBegin]
       ++ List.map Sketch (trace_of (run (setup w) s))).
Proof.
  intros [Hup Hdown] Hlt. unfold power_up, setupWiFi.
  rewrite (wifi_wait_connects connected n polls 0 Hup Hdown Hlt).
  cbn [setupKeypad negb setupSinricPro and_then app].
  rewrite <- !app_assoc. reflexivity.
Qed.

(** The network up at the fourth poll, five polls observed. *)
Lemma power_up_after_connection_witness :
  List.filter is_dot
    (events_of (power_up true 5 up_at_poll_3 early_world initial_state))
  = [SerialPrint "."; SerialPrint "."; SerialPrint "."].
Proof.
  rewrite (power_up_after_connection 5 3 up_at_poll_3 early_world
             initial_state).
  - reflexivity.
  - split; [reflexivity |].
    intros m Hm. unfold up_at_poll_3. apply Nat.leb_gt. exact Hm.
  - lia.
Defined.

(** X23. While the network stays down [setup] does not return, however
    long one watches: after the keypad is set up and the network announced by
    its name, it keeps printing dots, one per poll with a pause of 250 ms,
    and none of the sketch proper happens, no notification and no sample. *)
Theorem power_up_waits_for_network
    (polls : nat) (connected : nat -> bool) (w : World) (s : State) :
  (forall m : nat, (m < polls)%nat -> connected m = false) ->
  power_up true polls connected w s
  = Waiting
      ([SerialBegin 115200; PinModeInput 17; PinModeInput 36;
        KeypadBegin; SerialPrintln "Keypad initialized!";
        KeypadMatrix 4 4; KeypadFlush;
        WiFiSetSleep false; WiFiSetAutoReconnect true; WiFiBegin;
        SerialPrint "[WiFi]: Connecting to Pixel_7137"]
       ++ dots polls)
  /\ List.filter is_sketch
       (events_of (power_up true polls connected w s)) = [].
Proof.
  intros Hdown.
  assert (Hrun : power_up true polls connected w s
                 = Waiting
                     ([SerialBegin 115200; PinModeInput 17; PinModeInput 36;
                       KeypadBegin; SerialPrintln "Keypad initialized!";
                       KeypadMatrix 4 4; KeypadFlush;
                       WiFiSetSleep false; WiFiSetAutoReconnect true;
                       WiFiBegin;
                       SerialPrint "[WiFi]: Connecting to Pixel_7137"]
                      ++ dots polls)).
  { unfold power_up, setupWiFi.
    rewrite (wifi_wait_waits connected polls 0 Hdown). reflexivity. }
  rewrite Hrun. split; [reflexivity |].
  cbn [events_of app List.filter is_sketch].
  induction polls as [| polls IH]; [reflexivity |].
  cbn [dots List.filter is_sketch]. apply IH.
  - intros m Hm. apply Hdown. lia.
  - unfold power_up, setupWiFi.
    rewrite (wifi_wait_waits connected polls 0); [reflexivity |].
    intros m Hm. apply Hdown. lia.
Qed.

(** A network that never comes up, watched for a thousand polls. *)
Lemma power_up_waits_for_network_witness :
  List.filter is_sketch
    (events_of (power_up true 1000 never_up early_world initial_state)) = [].
Proof.
  apply (power_up_waits_for_network 1000 never_up early_world initial_state).
  reflexivity.
Defined.

(** ** Independence of the samplers *)

(** X24. The two samplers do not interfere: they write disjoint globals and
    neither reads what the other writes, so calling the rain handler and then
    the temperature handler leaves the same globals as calling them the other
    way round, and each of them logs and sends the same in both orders. *)
Theorem samplers_commute
    (rain_clock analog digital : Z)
    (dht_clock : Z) (t h : float) (send : float -> float -> bool)
    (s : State) :
  let rain := handleRainSensor rain_clock analog digital in
  let temp := handleTemperaturesensor dht_clock t h send in
  let rain_first := run rain s in
  let temp_second := run temp (final_state rain_first) in
  let temp_first := run temp s in
  let rain_second := run rain (final_state temp_first) in
  final_state temp_second = final_state rain_second
  /\ trace_of rain_first = trace_of rain_second
  /\ trace_of temp_first = trace_of temp_second.
Proof.
  cbv zeta. rewrite !handleRainSensor_paths, !handleTemperaturesensor_paths.
  assert (Hrain : forall s1 s2 : State,
             LM393_previous_millis s1 = LM393_previous_millis s2 ->
             rain_gate_open rain_clock s1 = rain_gate_open rain_clock s2).
  { intros s1 s2 Heq. unfold rain_gate_open. now rewrite Heq. }
  destruct (rain_gate_open rain_clock s) eqn:Hr;
    unfold final_state, trace_of; cbn [fst snd];
    rewrite ?(gate_open_same dht_clock s
                (set_LM393_previous_millis rain_clock s))
      by (destruct s; reflexivity);
    (destruct (gate_open dht_clock s); cbn [negb fst snd];
     [| rewrite ?Hr; cbn [fst snd]; repeat split];
     destruct (F32.isnan t || F32.isnan h); cbn [fst snd];
     [| destruct (send t h); cbn [fst snd] ]);
    match goal with
    | |- context [rain_gate_open rain_clock ?s'] =>
        rewrite (Hrain s' s) by (destruct s; reflexivity)
    end;
    rewrite Hr; cbn [fst snd]; destruct s; repeat split.
Qed.

(** ** The iterations the sketch performs *)

(** C9. In every iteration of [loop], from whatever globals and whatever the
    world returns, the Sinric Pro pump and then the keypad, rain, temperature
    and display handlers are each entered once, in that order, each starting
    from the globals its predecessor left: a [return] inside one handler ends
    that handler only and none of the later ones is skipped.  The display
    handler always runs, once, and is given the reading the globals hold
    after the temperature handler; and in every iteration the sketch
    performs, that is from the globals [setup] and any number of earlier
    iterations leave after power-up, this reading is the last known one,
    [lastTemperature] and [lastHumidity]. *)
Theorem loop_runs_handlers_and_displays_last_known (w : World) :
  (forall s : State,
     let r0 := run (SinricPro_handle (toggle_requests w)) s in
     let r1 := run handleKeypad (final_state r0) in
     let r2 := run (handleRainSensor (rain_millis w) (rain_analog w)
                      (rain_digital w)) (final_state r1) in
     let r3 := run (handleTemperaturesensor (dht_millis w)
                      (dht_temperature w) (dht_humidity w) (send_result w))
                 (final_state r2) in
     let r4 := run handleDisplay (final_state r3) in
     let r := run (loop w) s in
     trace_of r
     = Enter HSinricPro :: trace_of r0 ++
       Enter HKeypad :: trace_of r1 ++
       Enter HRainSensor :: trace_of r2 ++
       Enter HTemperaturesensor :: trace_of r3 ++
       Enter HDisplay :: trace_of r4
     /\ entered (trace_of r)
        = [HSinricPro; HKeypad; HRainSensor; HTemperaturesensor; HDisplay]
     /\ displayed (trace_of r) = [actual (final_state r)])
  /\ (forall (w0 : World) (ws : list World),
       let s := final_state (run (sketch w0 ws) initial_state) in
       display_gets_last_known w s
       /\ actual (final_state (run (loop w) s))
          = last_known (final_state (run (loop w) s))).
Proof.
  split.
  - intros s. cbv zeta.
    destruct (loop_runs_every_handler w s) as (Htr & Hent & Hdis & _).
    repeat split; assumption.
  - intros w0 ws. cbv zeta.
    set (s := final_state (run (sketch w0 ws) initial_state)).
    assert (Hidle : sensor_idle initial_state
                      (run (sketch w0 ws) initial_state)).
    { unfold sketch. rewrite run_bind_call.
      pose proof (setup_when_off w0 initial_state eq_refl) as Hsetup.
      destruct (run (setup w0) initial_state) as [[[] s1] t1].
      assert (Hoff1 : deviceIsOn s1 = false) by (apply Hsetup).
      pose proof (iterations_when_off ws s1 Hoff1) as Hiter.
      destruct (run (iterations ws) s1) as [[[] s2] t2].
      apply (sensor_idle_then initial_state (tt, s1, t1) (tt, s2, t2)
               Hsetup Hiter). }
    destruct Hidle as (Hoff & Hact & Hknown & _).
    fold s in Hoff, Hact, Hknown.
    assert (Hsame : actual s = last_known s)
      by (rewrite Hact, Hknown; reflexivity).
    destruct (loop_runs_every_handler w s) as (_ & _ & Hdis & Ha & Hk).
    assert (Hgate : gate_open (dht_millis w) s = false)
      by (unfold gate_open; now rewrite Hoff).
    assert (Hacc : accepted (dht_millis w) (dht_temperature w)
                     (dht_humidity w) (send_result w) s = false)
      by (unfold accepted; now rewrite Hgate).
    rewrite Hgate in Ha. rewrite Hacc in Hk.
    unfold display_gets_last_known. cbv zeta.
    rewrite Hdis, Ha, Hk, Hsame. split; reflexivity.
Qed.
